(** * Order fetcher: cache gate, status fusion, status heuristic, batching

    A shallow embedding of [utils/order_fetcher_optimized.py] and the
    properties of its fetch session, its in-page status scan and its batch
    runners.

    Conventions of the embedding.
    - A Python or JavaScript string is a Rocq [string] holding the UTF-8
      encoding of the text.  Substring search, prefix tests and the removal
      of a substring agree on UTF-8 bytes and on code points, because a
      complete encoded character can only match at a character boundary.
      Lengths are counted in UTF-16 code units, as JavaScript does
      ([utf16_length]).
    - A Python dict with string keys is a [gmap string pyval].
    - The collaborators (store, browser pool, page) are not part of the
      module: what they answer is an input of the model, and any of their
      calls may raise.
    - A coroutine is the function from what its awaits answer to its
      outcome.  The answers are keyed by order id ([world]); the per-order
      lock and the interleaving of the sessions of a batch are not
      represented, only the permits of the semaphore are.  Log lines and
      prints are left out, except where evaluating their arguments can
      raise.

    Limits of the embedding.
    - [float()] and [str.isdigit()] recognise the ASCII digits only.
    - A float value is carried by its [repr()]; no arithmetic is done on
      floats.  Whether the double denoted by a numeric text is positive is
      decided exactly on the decimal.
    - The computed style of an element is given by the two integers the
      script reads from it. *)

From Stdlib Require Import ZArith Lia Ascii.
From stdpp Require Import gmap strings list pretty sorting.
From Equations Require Import Equations.

Local Open Scope Z_scope.

(** ** Text primitives *)

Module Text.

(** [Some rest] when [p] is a prefix of [s] and [s = p ++ rest]. *)
Fixpoint strip_prefix (p s : string) : option string :=
  match p, s with
  | EmptyString, _ => Some s
  | String a p', String b s' =>
      if bool_decide (a = b) then strip_prefix p' s' else None
  | String _ _, EmptyString => None
  end.

(** Python [s.startswith(p)]. *)
Definition startswith (s p : string) : bool :=
  bool_decide (is_Some (strip_prefix p s)).

(** JavaScript [s.includes(p)], Python [p in s]. *)
Fixpoint includes (s p : string) : bool :=
  match strip_prefix p s with
  | Some _ => true
  | None =>
      match s with
      | EmptyString => false
      | String _ s' => includes s' p
      end
  end.

(** Python [s.replace(p, '')] for a non-empty [p]: every occurrence of
    [p], found left to right without overlap, is dropped. *)
Fixpoint remove_fuel (fuel : nat) (p s : string) : string :=
  match fuel with
  | O => s
  | S fuel' =>
      match strip_prefix p s with
      | Some rest => remove_fuel fuel' p rest
      | None =>
          match s with
          | EmptyString => EmptyString
          | String c s' => String c (remove_fuel fuel' p s')
          end
      end
  end.

Definition remove_all (p s : string) : string :=
  remove_fuel (String.length s) p s.

(** Python [s.split(c, 1)] when [c] occurs in [s]: the text before and
    after the first occurrence. *)
Fixpoint split_once (c : ascii) (s : string) : option (string * string) :=
  match s with
  | EmptyString => None
  | String a s' =>
      if bool_decide (a = c) then Some (EmptyString, s')
      else match split_once c s' with
           | Some (l, r) => Some (String a l, r)
           | None => None
           end
  end.

(** UTF-8 encoding of one code point. *)
Definition byte (n : N) : ascii := ascii_of_N n.

Definition utf8 (cp : N) : string :=
  (if cp <? 128 then String (byte cp) EmptyString
   else if cp <? 2048 then
     String (byte (192 + cp / 64))
       (String (byte (128 + cp mod 64)) EmptyString)
   else if cp <? 65536 then
     String (byte (224 + cp / 4096))
       (String (byte (128 + (cp / 64) mod 64))
          (String (byte (128 + cp mod 64)) EmptyString))
   else
     String (byte (240 + cp / 262144))
       (String (byte (128 + (cp / 4096) mod 64))
          (String (byte (128 + (cp / 64) mod 64))
             (String (byte (128 + cp mod 64)) EmptyString))))%N.

(** Number of UTF-16 code units of a UTF-8 text: one per character, two
    for a character outside the basic plane (a four-byte sequence);
    continuation bytes count for nothing. *)
Definition utf16_units (c : ascii) : nat :=
  let n := N_of_ascii c in
  if ((128 <=? n) && (n <? 192))%N then 0%nat
  else if (240 <=? n)%N then 2%nat else 1%nat.

Fixpoint utf16_length (s : string) : nat :=
  match s with
  | EmptyString => 0%nat
  | String c s' => (utf16_units c + utf16_length s')%nat
  end.

(** Removal of leading and trailing characters of a given class, the
    class being listed by the encodings of its characters. *)
Fixpoint strip_any (ws : list string) (s : string) : option string :=
  match ws with
  | [] => None
  | w :: ws' =>
      match strip_prefix w s with
      | Some rest => Some rest
      | None => strip_any ws' s
      end
  end.

Fixpoint lstrip_fuel (fuel : nat) (ws : list string) (s : string) : string :=
  match fuel with
  | O => s
  | S fuel' =>
      match strip_any ws s with
      | Some rest => lstrip_fuel fuel' ws rest
      | None => s
      end
  end.

Definition lstrip (ws : list string) (s : string) : string :=
  lstrip_fuel (String.length s) ws s.

Definition strip_class (ws : list string) (s : string) : string :=
  String.rev (lstrip (String.rev <$> ws) (String.rev (lstrip ws s))).

(** The characters [str.strip()] removes: those for which
    [str.isspace()] holds. *)
Definition py_whitespace : list string :=
  utf8 <$> [9; 10; 11; 12; 13; 28; 29; 30; 31; 32; 133; 160; 5760;
            8192; 8193; 8194; 8195; 8196; 8197; 8198; 8199; 8200; 8201;
            8202; 8232; 8233; 8239; 8287; 12288]%N.

(** The characters [String.prototype.trim] removes: WhiteSpace and
    LineTerminator of ECMAScript. *)
Definition js_whitespace : list string :=
  utf8 <$> [9; 10; 11; 12; 13; 32; 160; 5760;
            8192; 8193; 8194; 8195; 8196; 8197; 8198; 8199; 8200; 8201;
            8202; 8232; 8233; 8239; 8287; 12288; 65279]%N.

Definition py_strip : string → string := strip_class py_whitespace.
Definition js_trim : string → string := strip_class js_whitespace.

Definition is_ascii_digit (c : ascii) : bool :=
  let n := N_of_ascii c in ((48 <=? n) && (n <=? 57))%N.

Definition digit_value (c : ascii) : N := (N_of_ascii c - 48)%N.

(** ASCII lower-casing, for the case-insensitive words of [float()]. *)
Definition lower (c : ascii) : ascii :=
  let n := N_of_ascii c in
  (if (65 <=? n) && (n <=? 90) then byte (n + 32) else c)%N.

Fixpoint lower_string (s : string) : string :=
  match s with
  | EmptyString => EmptyString
  | String c s' => String (lower c) (lower_string s')
  end.

End Text.

(** ** The in-page status scan ([_get_order_status]) *)

Module StatusScan.
Import Text.

(** One row of the JavaScript [statusMap]. *)
Record status_entry := StatusEntry {
  text : string;
  status : string;
  priority : Z
}.

Definition statusMap : list status_entry := [
  StatusEntry "买家取消了订单" "cancelled" 100;
  StatusEntry "卖家取消了订单" "cancelled" 100;
  StatusEntry "交易关闭" "cancelled" 90;
  StatusEntry "订单已关闭" "cancelled" 90;
  StatusEntry "卖家已发货，待买家确认收货" "shipped" 85;
  StatusEntry "已发货，待买家确认收货" "shipped" 80;
  StatusEntry "卖家已发货" "shipped" 75;
  StatusEntry "已发货" "shipped" 70;
  StatusEntry "待买家确认收货" "shipped" 65;
  StatusEntry "买家已付款，请尽快发货" "pending_ship" 60;
  StatusEntry "买家已付款" "pending_ship" 55;
  StatusEntry "待发货" "pending_ship" 50;
  StatusEntry "等待卖家发货" "pending_ship" 45;
  StatusEntry "交易成功" "completed" 40;
  StatusEntry "订单完成" "completed" 35;
  StatusEntry "交易完成" "completed" 30;
  StatusEntry "退款中" "refunding" 25;
  StatusEntry "申请退款" "refunding" 20;
  StatusEntry "处理中" "processing" 10
].

(** What [window.getComputedStyle(parent)] gives the scan:
    [fontSize] is the value of [parseInt(style.fontSize) || 0] and
    [fontWeight] that of [parseInt(style.fontWeight) || 0].  A computed
    font size is a non-negative length and a computed weight lies between
    1 and 1000, so both are naturals. *)
Record computed_style := ComputedStyle {
  fontSize : N;
  fontWeight : N
}.

(** A text node met by the tree walker: its [textContent] and the
    computed style of [node.parentElement], when it has one. *)
Record text_node := TextNode {
  textContent : string;
  parentElement : option computed_style
}.

(** The object kept in [bestMatch] (the parent's class name, which is only
    logged, is left out). *)
Record best_match := BestMatch {
  match_text : string;
  match_status : string;
  match_fontSize : N;
  match_fontWeight : N;
  match_score : Z
}.

(** Loop state: [bestMatch], [bestScore], [nodeCount]. *)
Record scan_state := ScanState {
  bestMatch : option best_match;
  bestScore : Z;
  nodeCount : Z
}.

Definition maxNodes : Z := 5000.

Definition score (item : status_entry) (style : computed_style) : Z :=
  priority item + Z.of_N (fontSize style)
  + (if 500 <? Z.of_N (fontWeight style) then 5 else 0).

(** The inner [for(const item of statusMap)]: it stops at the first row
    whose phrase the text includes. *)
Definition first_row (txt : string) : option status_entry :=
  List.find (λ item, includes txt (text item)) statusMap.

(** Body of the [while] loop for one node. *)
Definition visit (node : text_node) (st : scan_state) : scan_state :=
  let st := ScanState (bestMatch st) (bestScore st) (nodeCount st + 1) in
  let txt := js_trim (textContent node) in
  if bool_decide (txt = EmptyString)
     || (utf16_length txt <? 2)%nat || (100 <? utf16_length txt)%nat
  then st
  else
    match first_row txt with
    | None => st
    | Some item =>
        match parentElement node with
        | None => st
        | Some style =>
            let sc := score item style in
            if bestScore st <? sc then
              ScanState
                (Some (BestMatch txt (status item) (fontSize style)
                         (fontWeight style) sc))
                sc (nodeCount st)
            else st
        end
    end.

(** [while((node = walker.nextNode()) && nodeCount < maxNodes)]. *)
Fixpoint walk (nodes : list text_node) (st : scan_state) : scan_state :=
  match nodes with
  | [] => st
  | node :: rest =>
      if nodeCount st <? maxNodes then walk rest (visit node st) else st
  end.

Definition scan (document : list text_node) : scan_state :=
  walk document (ScanState None (-1) 0).

End StatusScan.

(** ** Python values *)

Module Py.
Import Text.

(** A raised exception, by its message [str(e)]. *)
Definition exn := string.

(** Outcome of a call that may raise. *)
Inductive result (A : Type) : Type :=
| Ok (a : A)
| Err (e : exn).
Global Arguments Ok {A} a.
Global Arguments Err {A} e.

Global Instance result_ret : MRet result := @Ok.
Global Instance result_bind : MBind result :=
  λ A B k m, match m with Ok a => k a | Err e => Err e end.

(** The values found in decoded JSON payloads, database rows and result
    dicts.  A float is given by its [repr()], which identifies it; a
    nested dict is the list of its items in order. *)
#[local] Set Warnings "-register-all".
Inductive pyval : Type :=
| PyNone
| PyBool (b : bool)
| PyInt (z : Z)
| PyFloat (repr : string)
| PyStr (s : string)
| PyList (items : list pyval)
| PyDict (items : list (string * pyval)).

(** Truth value of an object in a condition. *)
Definition truthy (v : pyval) : bool :=
  match v with
  | PyNone => false
  | PyBool b => b
  | PyInt z => negb (z =? 0)
  | PyFloat r => negb (bool_decide (r = "0.0") || bool_decide (r = "-0.0"))
  | PyStr s => negb (bool_decide (s = ""))
  | PyList l => match l with [] => false | _ => true end
  | PyDict d => match d with [] => false | _ => true end
  end.

(** [str(v)].  The text of a list or dict is its [repr], which begins with
    a bracket; the callers only test such a text against number syntax
    and status codes, so the rest of it is abbreviated. *)
Definition py_str (v : pyval) : string :=
  match v with
  | PyNone => "None"
  | PyBool true => "True"
  | PyBool false => "False"
  | PyInt z => pretty z
  | PyFloat r => r
  | PyStr s => s
  | PyList _ => "[...]"
  | PyDict _ => "{...}"
  end.

(** [v == 'literal'] for a string literal. *)
Definition eq_str (v : pyval) (lit : string) : bool :=
  match v with
  | PyStr s => bool_decide (s = lit)
  | _ => false
  end.

Fixpoint assoc (k : string) (d : list (string * pyval)) : option pyval :=
  match d with
  | [] => None
  | (k', v) :: d' => if bool_decide (k' = k) then Some v else assoc k d'
  end.

(** [v.get(k, default)]: only a dict has the method. *)
Definition py_get (v : pyval) (k : string) (dflt : pyval) : result pyval :=
  match v with
  | PyDict d => Ok (default dflt (assoc k d))
  | _ => Err "AttributeError: object has no attribute 'get'"
  end.

(** The first character of a text (one UTF-8 sequence). *)
Fixpoint continuation_prefix (s : string) : string :=
  match s with
  | String c s' =>
      if bool_decide (utf16_units c = 0%nat)
      then String c (continuation_prefix s') else ""
  | EmptyString => ""
  end.

Definition first_char (s : string) : option string :=
  match s with
  | EmptyString => None
  | String c s' => Some (String c (continuation_prefix s'))
  end.

Fixpoint chars_fuel (fuel : nat) (s : string) : list string :=
  match fuel with
  | O => []
  | S fuel' =>
      match first_char s with
      | None => []
      | Some c =>
          c :: chars_fuel fuel'
                 (default "" (strip_prefix c s))
      end
  end.

Definition chars (s : string) : list string := chars_fuel (String.length s) s.

(** [v[0]]. *)
Definition py_first (v : pyval) : result pyval :=
  match v with
  | PyList (x :: _) => Ok x
  | PyList [] => Err "IndexError: list index out of range"
  | PyStr s =>
      match first_char s with
      | Some c => Ok (PyStr c)
      | None => Err "IndexError: string index out of range"
      end
  | PyDict _ => Err "KeyError: 0"
  | _ => Err "TypeError: object is not subscriptable"
  end.

(** [v.startswith(p)]: only a string has the method. *)
Definition py_startswith (v : pyval) (p : string) : result bool :=
  match v with
  | PyStr s => Ok (startswith s p)
  | _ => Err "AttributeError: object has no attribute 'startswith'"
  end.

(** The elements a [for] loop draws from [v]. *)
Definition py_iter (v : pyval) : result (list pyval) :=
  match v with
  | PyList l => Ok l
  | PyStr s => Ok (PyStr <$> chars s)
  | PyDict d => Ok ((λ kv, PyStr kv.1) <$> d)
  | _ => Err "TypeError: object is not iterable"
  end.

(** [s.isdigit()]: non-empty and made of digits.  Only the ASCII digits
    are recognised here; Python also accepts the other Unicode digits,
    none of which occurs in a key of the status table. *)
Fixpoint all_digits (s : string) : bool :=
  match s with
  | EmptyString => true
  | String c s' => is_ascii_digit c && all_digits s'
  end.

Definition isdigit (s : string) : bool :=
  negb (bool_decide (s = "")) && all_digits s.

(** *** [float(text)] *)

(** The value denoted by the text, before rounding to a double:
    not-a-number, an infinity, or [(-1)^neg * mant * 10^exp10]. *)
Inductive pyfloat : Type :=
| FNan
| FInf (neg : bool)
| FDec (neg : bool) (mant : N) (exp10 : Z).

(** An underscore is accepted only between two digits, and is then
    ignored. *)
Fixpoint drop_underscores (prev : option ascii) (s : string)
  : option string :=
  match s with
  | EmptyString =>
      if bool_decide (prev = Some "_"%char) then None else Some ""
  | String c s' =>
      if bool_decide (c = "_"%char) then
        match prev with
        | Some d =>
            if is_ascii_digit d then drop_underscores (Some c) s' else None
        | None => None
        end
      else if bool_decide (prev = Some "_"%char) && negb (is_ascii_digit c)
      then None
      else String c <$> drop_underscores (Some c) s'
  end.

Definition read_sign (s : string) : bool * string :=
  match s with
  | String "-" s' => (true, s')
  | String "+" s' => (false, s')
  | _ => (false, s)
  end.

(** Reads a run of digits: the number read so far, how many digits were
    read, and what follows. *)
Fixpoint read_digits (s : string) (acc : N) (count : nat)
  : N * nat * string :=
  match s with
  | String c s' =>
      if is_ascii_digit c
      then read_digits s' (acc * 10 + digit_value c)%N (S count)
      else (acc, count, s)
  | EmptyString => (acc, count, s)
  end.

Definition read_exponent (s : string) : option Z :=
  match s with
  | EmptyString => Some 0
  | String c s' =>
      if bool_decide (lower c = "e"%char) then
        let '(neg, s'') := read_sign s' in
        let '(e, n, rest) := read_digits s'' 0%N 0%nat in
        if bool_decide (n = 0%nat) || negb (bool_decide (rest = ""))
        then None
        else Some (if neg then - Z.of_N e else Z.of_N e)
      else None
  end.

(** [float(text)] on a text from which [.strip()] has already removed the
    surrounding whitespace (so that the whitespace skipping of [float]
    itself has nothing left to do); [None] is [ValueError].  Digits are
    the ASCII digits. *)
Definition py_float (txt : string) : option pyfloat :=
  match drop_underscores None txt with
  | None => None
  | Some s =>
      let '(neg, s) := read_sign s in
      let word := lower_string s in
      if bool_decide (word = "inf") || bool_decide (word = "infinity")
      then Some (FInf neg)
      else if bool_decide (word = "nan") then Some FNan
      else
        let '(int_part, n1, s) := read_digits s 0%N 0%nat in
        let '(mant, n2, s) :=
          match s with
          | String "." s' => read_digits s' int_part 0%nat
          | _ => (int_part, 0%nat, s)
          end in
        if bool_decide ((n1 + n2)%nat = 0%nat) then None
        else
          match read_exponent s with
          | Some e => Some (FDec neg mant (e - Z.of_nat n2))
          | None => None
          end
  end.

(** [x > 0] for the double nearest to the denoted value.  A positive
    decimal rounds to a positive double exactly when it exceeds
    [2^-1075], half of the smallest subnormal (a tie goes to zero). *)
Definition float_gt_zero (x : pyfloat) : bool :=
  match x with
  | FNan => false
  | FInf neg => negb neg
  | FDec neg mant e =>
      negb neg &&
      (if 0 <=? e then 0 <? Z.of_N mant
       else 10 ^ (- e) <? Z.of_N mant * 2 ^ 1075)
  end.

End Py.

(** ** Parsing the intercepted payload ([_parse_api_response]) *)

Module ApiParser.
Import Text Py.

(** Code that fills the dict [result] and may raise part-way: the dict
    as filled so far survives the exception. *)
Definition filling (A : Type) : Type :=
  gmap string pyval → gmap string pyval * result A.

Global Instance filling_ret : MRet filling := λ A a d, (d, Ok a).
Global Instance filling_bind : MBind filling :=
  λ A B k m d,
    match m d with
    | (d', Ok a) => k a d'
    | (d', Err e) => (d', Err e)
    end.

(** [result[k] = v]. *)
Definition set_item (k : string) (v : pyval) : filling unit :=
  λ d, (<[k := v]> d, Ok tt).

(** [k in result]. *)
Definition has_item (k : string) : filling bool :=
  λ d, (d, Ok (bool_decide (is_Some (d !! k)))).

Definition lift {A} (r : result A) : filling A := λ d, (d, r).

Definition when (b : bool) (body : filling unit) : filling unit :=
  if b then body else mret tt.

(** [try: body except Exception: log] followed by [return result]. *)
Definition filled (body : filling unit) : gmap string pyval := (body ∅).1.

Definition dget (v : pyval) (k : string) (dflt : pyval) : filling pyval :=
  lift (py_get v k dflt).

Definition STATUS_CODE_MAP : gmap string string :=
  list_to_map [
    ("1", "processing");
    ("2", "pending_ship");
    ("3", "shipped");
    ("4", "completed");
    ("7", "refunding");
    ("8", "cancelled");
    ("9", "refunding");
    ("10", "cancelled");
    ("11", "completed");
    ("12", "cancelled")
  ].

(** The statuses the parser keeps as they are. *)
Definition status_names : list string :=
  ["processing"; "pending_ship"; "shipped"; "completed"; "cancelled";
   "refunding"; "unknown"].

(** The value stored in [result['order_status']] for a raw [status]. *)
Definition order_status_of (status_code : pyval) : pyval :=
  match status_code with
  | PyStr s =>
      if bool_decide (s ∈ status_names) then PyStr s
      else if isdigit s then
        PyStr (default "unknown" (STATUS_CODE_MAP !! s))
      else PyStr s
  | _ => PyStr (default "unknown" (STATUS_CODE_MAP !! py_str status_code))
  end.

(** [' '.join(parts)]: every part must be a string. *)
Fixpoint join_strings (parts : list pyval) : result string :=
  match parts with
  | [] => Ok ""
  | PyStr s :: rest =>
      match rest with
      | [] => Ok s
      | _ => tail ← join_strings rest; Ok (s +:+ " " +:+ tail)
      end
  | _ :: _ => Err "TypeError: sequence item: expected str instance"
  end.

(** Body of [if address_info:]. *)
Definition address_fields (address_info : pyval) : filling unit :=
  name ← dget address_info "receiverName" (PyStr "");
  set_item "receiver_name" name;;
  phone ← dget address_info "receiverMobile" (PyStr "");
  set_item "receiver_phone" phone;;
  province ← dget address_info "province" (PyStr "");
  city ← dget address_info "city" (PyStr "");
  district ← dget address_info "district" (PyStr "");
  detail_address ← dget address_info "detailAddress" (PyStr "");
  full_address ← dget address_info "fullAddress" (PyStr "");
  set_item "receiver_city" city;;
  if truthy full_address then set_item "receiver_address" full_address
  else if truthy province || truthy city || truthy district
          || truthy detail_address
  then
    let address_parts :=
      filter (λ p, truthy p = true)
             [province; city; district; detail_address] in
    joined ← lift (join_strings address_parts);
    set_item "receiver_address" (PyStr joined)
  else mret tt.

(** Body of [if component.get('render') == 'orderInfoVO':]. *)
Definition order_info (component : pyval) : filling unit :=
  data ← dget component "data" (PyDict []);
  item_info ← dget data "itemInfo" (PyDict []);
  title ← dget item_info "title" (PyStr "");
  set_item "item_title" title;;
  item_id ← dget item_info "itemId" (PyStr "");
  set_item "item_id" item_id;;
  data ← dget component "data" (PyDict []);
  price_info ← dget data "priceInfo" (PyDict []);
  amount ← dget price_info "amount" (PyDict []);
  value ← dget amount "value" (PyStr "");
  set_item "price" value;;
  data ← dget component "data" (PyDict []);
  address_info ← dget data "addressInfo" (PyDict []);
  when (truthy address_info) (address_fields address_info);;
  data ← dget component "data" (PyDict []);
  buyer_info ← dget data "buyerInfo" (PyDict []);
  user_id ← dget buyer_info "userId" (PyStr "");
  set_item "buyer_id" user_id.

(** [for component in components: ...]. *)
Fixpoint each_component (components : list pyval) : filling unit :=
  match components with
  | [] => mret tt
  | component :: rest =>
      render ← dget component "render" PyNone;
      when (eq_str render "orderInfoVO") (order_info component);;
      each_component rest
  end.

(** [any(btn.get('tradeAction') == 'RATE' for btn in button_list)]: it
    stops at the first button that matches. *)
Fixpoint any_rate (buttons : list pyval) : result bool :=
  match buttons with
  | [] => Ok false
  | btn :: rest =>
      action ← py_get btn "tradeAction" PyNone;
      if eq_str action "RATE" then Ok true else any_rate rest
  end.

Definition parse_body (order_data : pyval) : filling unit :=
  status_code ← dget order_data "status" (PyStr "unknown");
  set_item "order_status" (order_status_of status_code);;
  ut_args ← dget order_data "utArgs" (PyDict []);
  status_text ← dget ut_args "orderStatusName" (PyStr "");
  set_item "status_text" status_text;;
  components ← dget order_data "components" (PyList []);
  component_list ← lift (py_iter components);
  each_component component_list;;
  bottom_bar ← dget order_data "bottomBarVO" (PyDict []);
  button_list ← dget bottom_bar "buttonList" (PyList []);
  buttons ← lift (py_iter button_list);
  can_rate ← lift (any_rate buttons);
  set_item "can_rate" (PyBool can_rate).

Definition _parse_api_response (order_data : pyval) : gmap string pyval :=
  filled (parse_body order_data).

End ApiParser.

(** ** Scanning the rendered page ([_parse_dom_content]) *)

Module DomScanner.
Import Text Py StatusScan ApiParser.

(** What the page of one order-detail visit answers.  Each field is the
    outcome of the driver calls named in its comment; [Err] is a raised
    exception. *)
Record page := Page {
  (** [page.route] installing [handle_route] *)
  route_installed : result unit;
  (** [page.goto(url, ...)]: the status of the response, if there is one *)
  goto_response : result (option Z);
  (** the two scrolling [page.evaluate] calls *)
  scrolled : result unit;
  (** [self.api_responses] once the page has settled: the decoded bodies
      of the order-detail requests, in arrival order *)
  api_responses : list pyval;
  (** text of the element [.boldNum--JgEOXfA3]: [None] when there is no
      such element or its text is null *)
  amount_text : result (option string);
  (** the key [_get_order_time] writes, if it finds a time *)
  order_time_found : option string;
  (** the keys [_get_receiver_info] writes *)
  receiver_phone_found : option string;
  receiver_name_found : option string;
  receiver_address_found : option string;
  (** [query_selector_all('.sku--u_ddZval')] and, for each element, the
      outcome of [text_content()] *)
  sku_elements : result (list (result (option string)));
  (** the text nodes under [document.body] in walker order, for the script
      run by [_get_order_status] *)
  status_document : result (list text_node);
  (** [page.title()] *)
  page_title : result string
}.

(** [_get_order_status]: the status of the best match, ['unknown'] when
    there is none or when the script fails. *)
Definition _get_order_status (pg : page) : string :=
  match status_document pg with
  | Ok document =>
      match bestMatch (scan document) with
      | Some match_info => match_status match_info
      | None => "unknown"
      end
  | Err _ => "unknown"
  end.

(** [_get_order_time] and [_get_receiver_info] catch their own
    exceptions; all they do to [result] is write these keys. *)
Definition write_found (k : string) (found : option string) : filling unit :=
  match found with
  | Some v => set_item k (PyStr v)
  | None => mret tt
  end.

(** [sku_elements[0]]: the specification. *)
Definition spec_fields (element : result (option string)) : filling unit :=
  spec_content ← lift element;
  match spec_content with
  | Some spec_content =>
      match split_once ":" spec_content with
      | Some (name, value) =>
          set_item "spec_name" (PyStr (py_strip name));;
          set_item "spec_value" (PyStr (py_strip value))
      | None => mret tt
      end
  | None => mret tt
  end.

(** [sku_elements[1]]: the quantity. *)
Definition quantity_field (element : result (option string)) : filling unit :=
  quantity_content ← lift element;
  match quantity_content with
  | Some quantity_content =>
      if bool_decide (quantity_content = "") then mret tt
      else
        let quantity_value :=
          match split_once ":" quantity_content with
          | Some (_, value) => py_strip value
          | None => py_strip quantity_content
          end in
        let quantity_value :=
          match quantity_value with
          | String "x" rest => rest
          | _ => quantity_value
          end in
        set_item "quantity" (PyStr quantity_value)
  | None => mret tt
  end.

Definition scan_body (pg : page) : filling unit :=
  amount ← lift (amount_text pg);
  match amount with
  | Some amount_text =>
      when (negb (bool_decide (amount_text = "")))
           (set_item "amount" (PyStr (py_strip amount_text)))
  | None => mret tt
  end;;
  write_found "order_time" (order_time_found pg);;
  write_found "receiver_phone" (receiver_phone_found pg);;
  write_found "receiver_name" (receiver_name_found pg);;
  write_found "receiver_address" (receiver_address_found pg);;
  sku ← lift (sku_elements pg);
  match sku !! 0%nat with
  | Some element => spec_fields element
  | None => mret tt
  end;;
  match sku !! 1%nat with
  | Some element => quantity_field element
  | None => mret tt
  end;;
  has_quantity ← has_item "quantity";
  when (negb has_quantity) (set_item "quantity" (PyStr "1"));;
  set_item "order_status_dom" (PyStr (_get_order_status pg)).

Definition _parse_dom_content (pg : page) : gmap string pyval :=
  filled (scan_body pg).

End DomScanner.

(** ** One fetch session ([fetch_order_complete]) *)

Module Session.
Import Text Py StatusScan ApiParser DomScanner.

(** The collaborators of a session: the store lookup
    [db_manager.get_order_by_id] (a raised error includes a failing
    import of the store), the browser pool, and the clock.  The answers
    for one order id are those its session receives. *)
Record world := World {
  get_order_by_id : string → result (option (gmap string pyval));
  get_browser : string → result (option page);
  time_time : string
}.

(** [d.get(k, dflt)] on a result dict or a database row. *)
Definition get (d : gmap string pyval) (k : string) (dflt : pyval) : pyval :=
  default dflt (d !! k).

Definition dict_truthy (d : gmap string pyval) : bool :=
  negb (bool_decide (dom d = (∅ : gset string))).

Definition order_url (order_id : string) : string :=
  "https://www.goofish.com/order-detail?orderId=" +:+ order_id
  +:+ "&role=seller".

(** The validity check of the stored amount (lines 84-93). *)
Definition amount_valid (amount : pyval) : bool :=
  if truthy amount then
    let amount_clean :=
      py_strip
        (remove_all "$" (remove_all "￥" (remove_all "¥" (py_str amount)))) in
    match py_float amount_clean with
    | Some amount_value => float_gt_zero amount_value
    | None => false
    end
  else false.

(** The dict returned on a cache hit (lines 105-126). *)
Definition cached_record (order_id now : string) (stored_id : pyval)
    (existing_order : gmap string pyval) : gmap string pyval :=
  list_to_map [
    ("order_id", stored_id);
    ("url", PyStr (order_url order_id));
    ("title", PyStr ("订单详情 - " +:+ order_id));
    ("order_status", get existing_order "order_status" (PyStr "unknown"));
    ("status_text", get existing_order "status_text" (PyStr ""));
    ("item_title", get existing_order "item_title" (PyStr ""));
    ("spec_name", get existing_order "spec_name" (PyStr ""));
    ("spec_value", get existing_order "spec_value" (PyStr ""));
    ("quantity", get existing_order "quantity" (PyStr ""));
    ("amount", get existing_order "amount" (PyStr ""));
    ("order_time", get existing_order "created_at" (PyStr ""));
    ("receiver_name", get existing_order "receiver_name" (PyStr ""));
    ("receiver_phone", get existing_order "receiver_phone" (PyStr ""));
    ("receiver_address", get existing_order "receiver_address" (PyStr ""));
    ("receiver_city", get existing_order "receiver_city" (PyStr ""));
    ("buyer_id", get existing_order "buyer_id" (PyStr ""));
    ("item_id", get existing_order "item_id" (PyStr ""));
    ("can_rate", get existing_order "can_rate" (PyBool false));
    ("timestamp", PyFloat now);
    ("from_cache", PyBool true)
  ].

(** Outcome of the cache check. *)
Inductive gate : Type :=
| UseCache (record : gmap string pyval)
| MustFetch.

(** The cache check (lines 82-131).  Building the cached dict raises
    [KeyError] when the row has no ['order_id']. *)
Definition cache_gate (order_id now : string)
    (existing_order : option (gmap string pyval)) (force_refresh : bool)
  : result gate :=
  match existing_order with
  | Some existing_order =>
      if dict_truthy existing_order then
        let amount := get existing_order "amount" (PyStr "") in
        if amount_valid amount && negb force_refresh then
          match existing_order !! "order_id" with
          | Some stored_id =>
              Ok (UseCache (cached_record order_id now stored_id existing_order))
          | None => Err "KeyError: 'order_id'"
          end
        else Ok MustFetch
      else Ok MustFetch
  | None => Ok MustFetch
  end.

(** Choice of [api_data] from the intercepted payloads (lines 199-211).
    The two log lines read [ret] again, which may raise. *)
Definition api_data_of (api_responses : list pyval)
  : result (gmap string pyval) :=
  match api_responses with
  | [] => Ok ∅
  | api_result :: _ =>
      ret ← py_get api_result "ret" PyNone;
      success ←
        (if truthy ret then
           first ← py_first ret;
           py_startswith first "SUCCESS"
         else Ok false);
      if success : bool then
        order_data ← py_get api_result "data" (PyDict []);
        Ok (_parse_api_response order_data)
      else
        shown ← py_get api_result "ret" (PyList [PyStr "未知错误"]);
        _ ← py_first shown;
        Ok ∅
  end.

(** The merge of the two sources (lines 218-256). *)
Definition fuse (order_id url title now : string)
    (api_data dom_data : gmap string pyval) : gmap string pyval :=
  let result : gmap string pyval :=
    list_to_map [
      ("order_id", PyStr order_id);
      ("url", PyStr url);
      ("title", PyStr title);
      ("timestamp", PyFloat now);
      ("from_cache", PyBool false)
    ] in
  let api_status := get api_data "order_status" (PyStr "unknown") in
  let dom_status := get dom_data "order_status_dom" PyNone in
  let result := <["api_status" := api_status]> result in
  let result :=
    <["dom_status" :=
        if truthy dom_status then dom_status else PyStr "not_detected"]>
      result in
  let result :=
    if truthy dom_status && negb (eq_str dom_status "unknown")
    then <["order_status" := dom_status]> result
    else <["order_status" := api_status]> result in
  let result := <["status_text" := get api_data "status_text" (PyStr "")]> result in
  let result := <["item_title" := get api_data "item_title" (PyStr "")]> result in
  let result := <["buyer_id" := get api_data "buyer_id" (PyStr "")]> result in
  let result := <["item_id" := get api_data "item_id" (PyStr "")]> result in
  let result := <["can_rate" := get api_data "can_rate" (PyBool false)]> result in
  let result := <["spec_name" := get dom_data "spec_name" (PyStr "")]> result in
  let result := <["spec_value" := get dom_data "spec_value" (PyStr "")]> result in
  let result := <["quantity" := get dom_data "quantity" (PyStr "1")]> result in
  let result :=
    <["amount" := get dom_data "amount" (get api_data "price" (PyStr ""))]>
      result in
  let result := <["order_time" := get dom_data "order_time" (PyStr "")]> result in
  let result :=
    <["receiver_name" :=
        get dom_data "receiver_name" (get api_data "receiver_name" (PyStr ""))]>
      result in
  let result :=
    <["receiver_phone" :=
        get dom_data "receiver_phone" (get api_data "receiver_phone" (PyStr ""))]>
      result in
  let result :=
    <["receiver_address" :=
        get dom_data "receiver_address"
          (get api_data "receiver_address" (PyStr ""))]>
      result in
  <["receiver_city" := get api_data "receiver_city" (PyStr "")]> result.

(** The live visit (lines 133-261); [Ok None] is an explicit
    [return None]. *)
Definition live_fetch (w : world) (use_pool : bool) (order_id : string)
  : result (option (gmap string pyval)) :=
  if use_pool then
    browser ← get_browser w order_id;
    match browser with
    | None => Ok None
    | Some pg =>
        _ ← route_installed pg;
        response ← goto_response pg;
        match response with
        | None => Ok None
        | Some status =>
            if negb (status =? 200) then Ok None
            else
              _ ← scrolled pg;
              api_data ← api_data_of (api_responses pg);
              let dom_data := _parse_dom_content pg in
              title ← page_title pg;
              Ok (Some (fuse order_id (order_url order_id) title
                          (time_time w) api_data dom_data))
        end
    end
  else Ok None.

(** The body of the [try] block. *)
Definition session_body (w : world) (use_pool : bool) (order_id : string)
    (force_refresh : bool) : result (option (gmap string pyval)) :=
  existing_order ← get_order_by_id w order_id;
  decision ← cache_gate order_id (time_time w) existing_order force_refresh;
  match decision with
  | UseCache record => Ok (Some record)
  | MustFetch => live_fetch w use_pool order_id
  end.

(** [OrderFetcherOptimized.fetch_order_complete], run under the lock of
    its order id: [except Exception] turns every error of the body into
    [None].  The module-level function of the same name builds the
    fetcher and calls this method. *)
Definition fetch_order_complete (w : world) (use_pool : bool)
    (order_id : string) (force_refresh : bool)
  : option (gmap string pyval) :=
  match session_body w use_pool order_id force_refresh with
  | Ok record => record
  | Err _ => None
  end.

End Session.

(** ** The batch runners ([process_orders_batch],
       [process_orders_in_batches]) *)

Module Batch.
Import Py Session.

(** What a caller can observe of the runners, in order: each call of the
    bounded batch runner with its arguments, and each cooldown
    [asyncio.sleep(batch_delay)] between chunks. *)
Inductive event (delay : Type) : Type :=
| BatchCall (order_ids : list string) (max_concurrent : Z)
    (force_refresh : bool)
| Cooldown (seconds : delay).
Global Arguments BatchCall {delay} order_ids max_concurrent force_refresh.
Global Arguments Cooldown {delay} seconds.

(** How a coroutine ends: it returns, it raises, or it never resumes. *)
Inductive outcome (A : Type) : Type :=
| Returned (a : A)
| Raised (e : exn)
| Blocked.
Global Arguments Returned {A} a.
Global Arguments Raised {A} e.
Global Arguments Blocked {A}.

Section Runner.
Context {delay : Type}.

(** The single-order call [fetch_order_complete(order_id, ...,
    force_refresh)] as the runner sees it: a record, [None], or an
    exception that escapes the session. *)
Variable session :
  string → bool → result (option (gmap string pyval)).

(** A coroutine of the runners: it extends the log of events. *)
Definition run (A : Type) : Type :=
  list (event delay) → list (event delay) * outcome A.

Global Instance run_ret : MRet run := λ A a log, (log, Returned a).
Global Instance run_bind : MBind run :=
  λ A B k m log,
    match m log with
    | (log', Returned a) => k a log'
    | (log', Raised e) => (log', Raised e)
    | (log', Blocked) => (log', Blocked)
    end.

Definition emit (e : event delay) : run unit :=
  λ log, (log ++ [e], Returned tt).
Definition raise {A} (e : exn) : run A := λ log, (log, Raised e).
Definition block {A} : run A := λ log, (log, Blocked).

Definition failure_entry (order_id : string) (error : string)
  : gmap string pyval :=
  list_to_map [
    ("order_id", PyStr order_id);
    ("success", PyBool false);
    ("error", PyStr error)
  ].

(** [process_single_order]: what its task yields once past the
    semaphore. *)
Definition process_single_order (force_refresh : bool)
    (order_id : string) (index : nat) : result (gmap string pyval) :=
  match session order_id force_refresh with
  | Ok (Some result) =>
      if dict_truthy result then Ok result
      else Ok (failure_entry order_id "获取订单信息失败")
  | Ok None => Ok (failure_entry order_id "获取订单信息失败")
  | Err e => Ok (failure_entry order_id e)
  end.

(** [asyncio.gather] with [return_exceptions=True], for tasks that
    each enter [asyncio.Semaphore(max_concurrent)]: every task runs to
    its end and an exception is returned as a value.  With no permit no
    task gets past the semaphore and the call never returns. *)
Definition gather (max_concurrent : Z)
    (tasks : list (result (gmap string pyval)))
  : run (list (result (gmap string pyval))) :=
  match tasks with
  | [] => mret []
  | _ :: _ => if max_concurrent =? 0 then block else mret tasks
  end.

(** The loop over [enumerate(results)]. *)
Fixpoint collect (order_ids : list string) (i : nat)
    (results : list (result (gmap string pyval)))
    (processed_results : list (gmap string pyval))
  : run (list (gmap string pyval)) :=
  match results with
  | [] => mret processed_results
  | Err e :: rest =>
      match order_ids !! i with
      | Some order_id =>
          collect order_ids (S i) rest
            (processed_results ++ [failure_entry order_id e])
      | None => raise "IndexError: list index out of range"
      end
  | Ok result :: rest =>
      collect order_ids (S i) rest (processed_results ++ [result])
  end.

Definition process_orders_batch (order_ids : list string)
    (max_concurrent : Z) (force_refresh : bool)
  : run (list (gmap string pyval)) :=
  emit (BatchCall order_ids max_concurrent force_refresh);;
  (if max_concurrent <? 0
   then raise "ValueError: Semaphore initial value must be >= 0"
   else mret tt);;
  let tasks :=
    imap (λ index order_id,
            process_single_order force_refresh order_id index)
         order_ids in
  results ← gather max_concurrent tasks;
  collect order_ids 0 results [].

(** [range(n)]. *)
Definition range (n : Z) : list Z := Z.of_nat <$> seq 0 (Z.to_nat n).

(** [l[start:stop]]. *)
Definition py_slice {A} (l : list A) (start stop : Z) : list A :=
  let len := Z.of_nat (length l) in
  let clamp i := if i <? 0 then Z.max 0 (i + len) else Z.min i len in
  let lo := clamp start in
  let hi := clamp stop in
  take (Z.to_nat (hi - lo)) (drop (Z.to_nat lo) l).

(** The [for batch_index in range(total_batches)] loop.  The batch
    runner is called without [force_refresh], whose default is
    [False]. *)
Fixpoint each_batch (order_ids : list string)
    (batch_size max_concurrent : Z) (batch_delay : delay)
    (total_orders total_batches : Z) (indices : list Z)
    (all_results : list (gmap string pyval))
  : run (list (gmap string pyval)) :=
  match indices with
  | [] => mret all_results
  | batch_index :: rest =>
      let start_idx := batch_index * batch_size in
      let end_idx := Z.min ((batch_index + 1) * batch_size) total_orders in
      let batch_order_ids := py_slice order_ids start_idx end_idx in
      batch_results ←
        process_orders_batch batch_order_ids max_concurrent false;
      let all_results := all_results ++ batch_results in
      (if batch_index <? total_batches - 1
       then emit (Cooldown batch_delay) else mret tt);;
      each_batch order_ids batch_size max_concurrent batch_delay
        total_orders total_batches rest all_results
  end.

Definition process_orders_in_batches (order_ids : list string)
    (batch_size max_concurrent : Z) (batch_delay : delay)
  : run (list (gmap string pyval)) :=
  let total_orders := Z.of_nat (length order_ids) in
  if batch_size =? 0
  then raise "ZeroDivisionError: integer division or modulo by zero"
  else
    let total_batches := (total_orders + batch_size - 1) / batch_size in
    each_batch order_ids batch_size max_concurrent batch_delay
      total_orders total_batches (range total_batches) [].

End Runner.

(** The module-level [fetch_order_complete] as the runners call it: it
    builds a fetcher and awaits its method, which catches every exception
    of its body. *)
Definition world_session (w : world) (use_pool : bool)
  : string → bool → result (option (gmap string pyval)) :=
  λ order_id force_refresh,
    Ok (fetch_order_complete w use_pool order_id force_refresh).

End Batch.

(** ** Statements of the specification *)

Module Spec.
Import Text Py StatusScan ApiParser DomScanner Session Batch.

(** The score the specification gives a text node, with the status it
    stands for: defined when the trimmed text is at most 100 long and
    contains a ranked phrase (the first row of the table it contains
    supplies the base priority) and the node has a parent element. *)
Definition candidate (node : text_node) : option (Z * string) :=
  let txt := js_trim (textContent node) in
  if (utf16_length txt <=? 100)%nat then
    match first_row txt, parentElement node with
    | Some item, Some style =>
        Some (priority item + Z.of_N (fontSize style)
              + (if 500 <? Z.of_N (fontWeight style) then 5 else 0),
              status item)
    | _, _ => None
    end
  else None.

(** [(sc, st)] is the highest-scoring entry of [cands], the earliest one
    among equals. *)
Definition first_best (cands : list (Z * string)) (sc : Z) (st : string)
  : Prop :=
  ∃ i : nat,
    cands !! i = Some (sc, st)
    ∧ (∀ (j : nat) c, cands !! j = Some c → c.1 ≤ sc)
    ∧ (∀ (j : nat) c, (j < i)%nat → cands !! j = Some c → c.1 < sc).


(** What the loop maintains: the state holds the first best candidate of
    the nodes visited so far. *)
Definition scan_inv (cands : list (Z * string)) (st : scan_state) : Prop :=
  match bestMatch st with
  | None => bestScore st = -1 ∧ cands = []
  | Some m =>
      match_score m = bestScore st
      ∧ first_best cands (bestScore st) (match_status m)
  end.


(** The two text nodes of the second example. *)
Definition processing_node (style : computed_style) : text_node :=
  TextNode "处理中" (Some style).
Definition completed_node (style : computed_style) : text_node :=
  TextNode "交易成功" (Some style).

(** The stored amount, with the currency glyphs and the surrounding
    whitespace stripped. *)
Definition stripped_amount (amount : pyval) : string :=
  py_strip (remove_all "$" (remove_all "￥" (remove_all "¥" (py_str amount)))).

(** The amount is valid: stripped, it parses as a number strictly greater
    than zero. *)
Definition amount_is_positive_number (amount : pyval) : Prop :=
  ∃ x, py_float (stripped_amount amount) = Some x ∧ float_gt_zero x = true.


(** [m] leaves the key [k] of the dict as it finds it. *)
Definition untouched (k : string) {A} (m : filling A) : Prop :=
  ∀ d, (m d).1 !! k = d !! k.

(** [m] either stops before writing [k] or ends having written [v]
    there. *)
Definition writes_last (k : string) (v : pyval) {A} (m : filling A) : Prop :=
  ∀ d, d !! k = None → (m d).1 !! k = None ∨ (m d).1 !! k = Some v.

Section Entries.
Context (session : string → bool → result (option (gmap string pyval))).

(** The entry of one order in the result of a batch: the record of its
    session, or a failure entry naming the order. *)
Definition entry_of (force_refresh : bool) (order_id : string)
  : gmap string pyval :=
  match session order_id force_refresh with
  | Ok (Some record) =>
      if dict_truthy record then record
      else failure_entry order_id "获取订单信息失败"
  | Ok None => failure_entry order_id "获取订单信息失败"
  | Err e => failure_entry order_id e
  end.

(** The entries of a list of orders. *)
Definition entries_of (force_refresh : bool) (order_ids : list string)
  : list (gmap string pyval) :=
  entry_of force_refresh <$> order_ids.
End Entries.

(** Consecutive chunks of [size] elements, the last one possibly
    shorter. *)
Equations? chunks_of {A} (size : nat) (l : list A) : list (list A)
  by wf (length l) lt :=
  chunks_of size [] := [];
  chunks_of 0 (x :: l) := [x :: l];
  chunks_of (S n) (x :: l) := (x :: take n l) :: chunks_of (S n) (drop n l).
Proof. rewrite length_drop. simpl. lia. Qed.

(** The log of a chunked run: the calls of the batch runner, with a
    cooldown between two consecutive calls and none after the last. *)
Fixpoint with_cooldowns {delay} (d : delay) (calls : list (event delay))
  : list (event delay) :=
  match calls with
  | [] => []
  | call :: rest =>
      match rest with
      | [] => [call]
      | _ :: _ => call :: Cooldown d :: with_cooldowns d rest
      end
  end.

Definition is_cooldown {delay} (e : event delay) : bool :=
  match e with
  | Cooldown _ => true
  | BatchCall _ _ _ => false
  end.

(** An event made by the chunked run: a cooldown, or a call of the batch
    runner that does not force a refresh. *)
Definition unforced {delay} (e : event delay) : Prop :=
  match e with
  | BatchCall _ _ force_refresh => force_refresh = false
  | Cooldown _ => True
  end.


(** Membership of the closed enum of order statuses. *)
Definition is_order_status (v : pyval) : Prop :=
  ∃ s, v = PyStr s ∧ s ∈ status_names.

(** A provider status that is a code: any value that is not a string, or
    a string of digits. *)
Definition is_status_code (status_code : pyval) : Prop :=
  match status_code with
  | PyStr s => isdigit s = true
  | _ => True
  end.

(** A page that loads, with the given intercepted payloads and text
    nodes, and no amount, time, receiver or sku element. *)
Definition sample_page (payloads : list pyval) (document : list text_node)
  : page :=
  Page (Ok tt) (Ok (Some 200)) (Ok tt) payloads (Ok None) None None None
    None (Ok []) (Ok document) (Ok "订单详情").

(** Three orders: [A] is stored with a valid amount and no quantity, [B]
    is not stored and its navigation times out, [C] is not stored and its
    page shows a completed order. *)
Definition sample_row : gmap string pyval :=
  list_to_map [("order_id", PyStr "A"); ("amount", PyStr "¥ 12.50")].

Definition sample_world : world :=
  World
    (λ order_id,
       if bool_decide (order_id = "A") then Ok (Some sample_row)
       else Ok None)
    (λ order_id,
       if bool_decide (order_id = "B") then
         Ok (Some (Page (Ok tt) (Err "Timeout 30000ms exceeded") (Ok tt) []
                     (Ok None) None None None None (Ok []) (Ok [])
                     (Ok "")))
       else
         Ok (Some (sample_page []
                     [TextNode "交易成功" (Some (ComputedStyle 24 700))])))
    "1700000000.0".


(** A world where the provider reports a status outside the table and the
    page shows no status phrase. *)
Definition raw_status_world : world :=
  World (λ _, Ok None)
    (λ _, Ok (Some (sample_page
                      [PyDict [("ret", PyList [PyStr "SUCCESS::调用成功"]);
                               ("data", PyDict [("status", PyStr "closed")])]]
                      [])))
    "1700000000.0".

(** A record rebuilt from the cache: it is flagged as such and has no
    diagnostic key. *)
Definition cache_provenance (w : world) (order_id : string)
    (record : gmap string pyval) : Prop :=
  ∃ row stored_id,
    record = cached_record order_id (time_time w) stored_id row
    ∧ record !! "from_cache" = Some (PyBool true)
    ∧ record !! "api_status" = None
    ∧ record !! "dom_status" = None.

(** A freshly fetched record: it is flagged as such and has both
    diagnostic keys, [dom_status] being the sentinel when the scan recorded
    no status. *)
Definition fresh_provenance (w : world) (order_id : string)
    (record : gmap string pyval) : Prop :=
  ∃ pg api_data title,
    record = fuse order_id (order_url order_id) title (time_time w)
               api_data (_parse_dom_content pg)
    ∧ record !! "from_cache" = Some (PyBool false)
    ∧ record !! "api_status"
      = Some (get api_data "order_status" (PyStr "unknown"))
    ∧ is_Some (record !! "dom_status")
    ∧ (_parse_dom_content pg !! "order_status_dom" = None →
       record !! "dom_status" = Some (PyStr "not_detected")).

(** Twenty-five order ids. *)
Definition sample_ids : list string := pretty <$> seq 1 25.

End Spec.

Import Text Py StatusScan ApiParser DomScanner Session Batch Spec.

(** * Properties *)

(** ** Text *)

Section TextFacts.

Lemma strip_prefix_app p s rest :
  strip_prefix p s = Some rest → s = p +:+ rest.
Proof.
  revert s. induction p as [|a p IH]; intros s H.
  - simpl in H. by inversion H.
  - destruct s as [|b s]; simpl in H; [done|].
    case_bool_decide; [|done]. subst b.
    apply IH in H. by rewrite H.
Qed.

Lemma utf16_length_app s1 s2 :
  utf16_length (s1 +:+ s2) = (utf16_length s1 + utf16_length s2)%nat.
Proof.
  induction s1 as [|c s1 IH]; simpl; [done|].
  change (String c s1 +:+ s2) with (String c (s1 +:+ s2)).
  simpl. rewrite IH. lia.
Qed.


(** A text is at least as long as any text it includes. *)
Lemma includes_utf16_length s p :
  includes s p = true → (utf16_length p ≤ utf16_length s)%nat.
Proof.
  induction s as [|c s IH]; intros H.
  - unfold includes in H.
    destruct (strip_prefix p "") as [rest|] eqn:E; [|done].
    apply strip_prefix_app in E.
    rewrite E, utf16_length_app. lia.
  - cbn [includes] in H.
    destruct (strip_prefix p (String c s)) as [rest|] eqn:E.
    + apply strip_prefix_app in E.
      rewrite E, utf16_length_app. lia.
    + apply IH in H. simpl. lia.
Qed.

Lemma strip_prefix_length p s rest :
  strip_prefix p s = Some rest →
  String.length s = (String.length p + String.length rest)%nat.
Proof.
  revert s. induction p as [|a p IH]; intros s H.
  - simpl in H. by inversion H.
  - destruct s as [|b s]; simpl in H; [done|].
    case_bool_decide; [|done]. apply IH in H. simpl. lia.
Qed.

(** The fuel given to [remove_all] is enough: more fuel changes nothing. *)
Lemma remove_fuel_enough p (fuel : nat) : ∀ s,
  p ≠ "" → (String.length s ≤ fuel)%nat →
  remove_fuel fuel p s = remove_all p s.
Proof.
  unfold remove_all.
  induction fuel as [fuel IH] using lt_wf_ind. intros s Hp Hlen.
  destruct fuel as [|fuel].
  { destruct s; [done|simpl in Hlen; lia]. }
  destruct s as [|c s].
  { simpl. destruct (strip_prefix p "") as [rest|] eqn:E; [|done].
    apply strip_prefix_length in E. destruct p; [done|simpl in E; lia]. }
  cbn [String.length remove_fuel].
  destruct (strip_prefix p (String c s)) as [rest|] eqn:E.
  - pose proof (strip_prefix_length _ _ _ E) as Hl. simpl in Hl.
    assert (0 < String.length p)%nat by (destruct p; [done|simpl; lia]).
    rewrite (IH fuel) by (first [done | simpl in *; lia]).
    rewrite (IH (String.length s)) by (first [done | simpl in *; lia]). done.
  - f_equal. rewrite (IH fuel) by (first [done | simpl in *; lia]). done.
Qed.

Lemma strip_any_length ws s rest :
  Forall (λ w, w ≠ "") ws →
  strip_any ws s = Some rest → (String.length rest < String.length s)%nat.
Proof.
  induction 1 as [|w ws Hw Hall IH]; simpl; [done|].
  destruct (strip_prefix w s) as [r|] eqn:E.
  - intros [= <-]. apply strip_prefix_length in E.
    destruct w; [done|simpl in E; lia].
  - apply IH.
Qed.

(** The fuel given to [lstrip] is enough: nothing of the class is left at
    the front. *)
Lemma lstrip_fuel_done ws (fuel : nat) : ∀ s,
  Forall (λ w, w ≠ "") ws → (String.length s ≤ fuel)%nat →
  strip_any ws (lstrip_fuel fuel ws s) = None.
Proof.
  induction fuel as [|fuel IH]; intros s Hws Hlen; simpl.
  - destruct s; [|simpl in Hlen; lia].
    destruct (strip_any ws "") as [rest|] eqn:E; [|done].
    apply strip_any_length in E; [simpl in E; lia|done].
  - destruct (strip_any ws s) as [rest|] eqn:E; [|done].
    apply IH; [done|]. apply strip_any_length in E; [lia|done].
Qed.

Lemma whitespace_nonempty :
  Forall (λ w, w ≠ "") py_whitespace ∧ Forall (λ w, w ≠ "") js_whitespace.
Proof. split; by repeat constructor. Qed.

Lemma lstrip_whitespace_done s :
  strip_any py_whitespace (lstrip py_whitespace s) = None
  ∧ strip_any js_whitespace (lstrip js_whitespace s) = None.
Proof.
  destruct whitespace_nonempty as [Hpy Hjs].
  split; by apply lstrip_fuel_done.
Qed.

End TextFacts.

(** ** The status scan *)

Section StatusScanFacts.

Lemma statusMap_phrases_long :
  Forall (λ item, (2 ≤ utf16_length (text item))%nat) statusMap.
Proof. unfold statusMap. repeat constructor. Qed.

Lemma statusMap_priorities_positive :
  Forall (λ item, 10 ≤ priority item) statusMap.
Proof. unfold statusMap. repeat (constructor; [simpl; lia|]). constructor. Qed.

Lemma first_row_Some txt item :
  first_row txt = Some item →
  item ∈ statusMap ∧ includes txt (text item) = true.
Proof.
  unfold first_row. intros H. apply find_some in H as [Hin Hinc].
  split; [by apply list_elem_of_In | done].
Qed.

(** The table is in order of decreasing priority, so the first row a text
    contains has the highest priority among the rows it contains. *)
Lemma find_sorted_max {A} (f : A → Z) (P : A → bool) (l : list A) x :
  StronglySorted (λ a b, f b ≤ f a) l →
  List.find P l = Some x →
  ∀ y, y ∈ l → P y = true → f y ≤ f x.
Proof.
  induction 1 as [|a l Hs IH Hall]; simpl; [done|].
  destruct (P a) eqn:Pa.
  - intros [= <-] y Hy _. apply elem_of_cons in Hy as [->|Hy]; [lia|].
    rewrite Forall_forall in Hall. by apply Hall.
  - intros Hf y Hy Py. apply elem_of_cons in Hy as [->|Hy]; [congruence|].
    by apply IH.
Qed.

Lemma statusMap_sorted :
  StronglySorted (λ a b, priority b ≤ priority a) statusMap.
Proof.
  unfold statusMap.
  repeat (apply SSorted_cons; [|by repeat (constructor; [simpl; lia|])]).
  constructor.
Qed.

Lemma statusMap_ties item item' :
  item ∈ statusMap → item' ∈ statusMap →
  priority item' = priority item → status item' = status item.
Proof.
  assert (Forall (λ a, Forall (λ b, priority b = priority a →
                                    status b = status a) statusMap)
            statusMap) as H.
  { unfold statusMap.
    repeat (constructor;
            [repeat (constructor;
                     [simpl; intros; first [reflexivity | discriminate]|]);
             constructor|]).
    constructor. }
  intros Hin Hin'. rewrite Forall_forall in H. specialize (H _ Hin).
  rewrite Forall_forall in H. by apply H.
Qed.

Lemma first_row_highest txt item :
  first_row txt = Some item →
  ∀ item', item' ∈ statusMap → includes txt (text item') = true →
           priority item' ≤ priority item.
Proof.
  intros H item' Hin Hinc.
  by apply (find_sorted_max priority _ statusMap item statusMap_sorted H).
Qed.

Lemma first_row_long txt item :
  first_row txt = Some item → (2 ≤ utf16_length txt)%nat.
Proof.
  intros [Hin Hinc]%first_row_Some.
  apply includes_utf16_length in Hinc.
  pose proof statusMap_phrases_long as Hl.
  rewrite Forall_forall in Hl. specialize (Hl _ Hin). simpl in Hl. lia.
Qed.

Lemma candidate_score_positive node sc st :
  candidate node = Some (sc, st) → 10 ≤ sc.
Proof.
  unfold candidate. case_match; [|done].
  destruct (first_row _) as [item|] eqn:E; [|done].
  destruct (parentElement node) as [style|]; [|done].
  intros [= <- <-].
  apply first_row_Some in E as [Hin _].
  pose proof statusMap_priorities_positive as Hp.
  rewrite Forall_forall in Hp. specialize (Hp _ Hin). simpl in Hp.
  case_match; lia.
Qed.

(** One turn of the loop, in terms of the candidate of its node. *)
Lemma visit_spec node st :
  visit node st =
    match candidate node with
    | Some (sc, s) =>
        if bestScore st <? sc then
          ScanState
            (Some (BestMatch (js_trim (textContent node)) s
                     (from_option fontSize 0%N (parentElement node))
                     (from_option fontWeight 0%N (parentElement node)) sc))
            sc (nodeCount st + 1)
        else ScanState (bestMatch st) (bestScore st) (nodeCount st + 1)
    | None => ScanState (bestMatch st) (bestScore st) (nodeCount st + 1)
    end.
Proof.
  unfold visit, candidate. cbn zeta.
  set (txt := js_trim (textContent node)).
  destruct (first_row txt) as [item|] eqn:E.
  - pose proof (first_row_long _ _ E) as Hlen.
    assert (txt ≠ "") as Hne by (intros Heq; rewrite Heq in Hlen; simpl in Hlen; lia).
    rewrite bool_decide_eq_false_2 by done.
    replace (utf16_length txt <? 2)%nat with false
      by (symmetry; apply Nat.ltb_ge; lia).
    simpl.
    destruct (Nat.leb_spec (utf16_length txt) 100) as [Hle|Hgt].
    + replace (100 <? utf16_length txt)%nat with false
        by (symmetry; apply Nat.ltb_ge; lia).
      destruct (parentElement node) as [style|]; simpl; [|done].
      unfold score. by destruct (_ <? _).
    + replace (100 <? utf16_length txt)%nat with true
        by (symmetry; apply Nat.ltb_lt; lia).
      done.
  - destruct (_ || _); by destruct (_ <=? _)%nat.
Qed.


Lemma first_best_snoc_new cands sc st :
  (∀ (j : nat) c, cands !! j = Some c → c.1 < sc) →
  first_best (cands ++ [(sc, st)]) sc st.
Proof.
  intros Hlt. exists (length cands). split_and!.
  - by rewrite list_lookup_middle.
  - intros j c Hj. apply lookup_snoc_Some in Hj as [[_ Hj]|[_ <-]].
    + apply Hlt in Hj. lia.
    + simpl. lia.
  - intros j c Hji Hj. rewrite lookup_app_l in Hj by done. eauto.
Qed.

Lemma first_best_snoc_keep cands sc st c :
  c.1 ≤ sc → first_best cands sc st → first_best (cands ++ [c]) sc st.
Proof.
  intros Hle (i & Hi & Hmax & Hfirst). exists i. split_and!.
  - by apply lookup_app_l_Some.
  - intros j c' Hj. apply lookup_snoc_Some in Hj as [[_ Hj]|[_ <-]]; eauto.
  - intros j c' Hji Hj.
    apply lookup_lt_Some in Hi.
    rewrite lookup_app_l in Hj by lia. eauto.
Qed.

Lemma visit_inv pre node st :
  scan_inv (omap candidate pre) st →
  scan_inv (omap candidate (pre ++ [node])) (visit node st).
Proof.
  rewrite omap_app, visit_spec. simpl.
  destruct (candidate node) as [[sc s]|] eqn:Ec; simpl.
  2: { by rewrite app_nil_r. }
  apply candidate_score_positive in Ec.
  unfold scan_inv.
  destruct (Z.ltb_spec (bestScore st) sc) as [Hlt|Hge]; simpl.
  - destruct (bestMatch st) as [m|].
    + intros [_ (i & Hi & Hmax & _)]. split; [done|].
      apply first_best_snoc_new. intros j c Hj. apply Hmax in Hj. lia.
    + intros [_ ->]. split; [done|].
      apply first_best_snoc_new. intros j c Hj. done.
  - destruct (bestMatch st) as [m|].
    + intros [Hm Hb]. split; [done|]. by apply first_best_snoc_keep.
    + intros [Hs _]. lia.
Qed.

Lemma nodeCount_visit node st : nodeCount (visit node st) = nodeCount st + 1.
Proof.
  rewrite visit_spec. destruct (candidate node) as [[sc s]|]; [|done].
  by destruct (_ <? _).
Qed.

Lemma walk_inv nodes : ∀ pre st,
  scan_inv (omap candidate pre) st →
  scan_inv
    (omap candidate
       (pre ++ take (Z.to_nat (maxNodes - nodeCount st)) nodes))
    (walk nodes st).
Proof.
  induction nodes as [|node rest IH]; intros pre st Hinv; simpl.
  - by rewrite take_nil, app_nil_r.
  - destruct (Z.ltb_spec (nodeCount st) maxNodes) as [Hlt|Hge].
    + replace (Z.to_nat (maxNodes - nodeCount st))
        with (S (Z.to_nat (maxNodes - nodeCount (visit node st))))
        by (rewrite nodeCount_visit; lia).
      simpl. rewrite cons_middle, (assoc_L (++) pre [node]).
      apply IH. by apply visit_inv.
    + replace (Z.to_nat (maxNodes - nodeCount st)) with 0%nat by lia.
      simpl. by rewrite app_nil_r.
Qed.

Lemma scan_first_best document :
  scan_inv (omap candidate (take 5000 document)) (scan document).
Proof.
  pose proof (walk_inv document [] (ScanState None (-1) 0)) as H.
  simpl in H. apply H. by split.
Qed.

End StatusScanFacts.

Section StatusScanClaim.

(** The candidates are the nodes the specification scores, with the
    score it states. *)
Lemma candidate_iff node sc st :
  candidate node = Some (sc, st) ↔
  ∃ item style,
    first_row (js_trim (textContent node)) = Some item
    ∧ (utf16_length (js_trim (textContent node)) ≤ 100)%nat
    ∧ parentElement node = Some style
    ∧ sc = priority item + Z.of_N (fontSize style)
           + (if 500 <? Z.of_N (fontWeight style) then 5 else 0)
    ∧ st = status item.
Proof.
  unfold candidate. cbn zeta.
  destruct (Nat.leb_spec (utf16_length (js_trim (textContent node))) 100).
  - destruct (first_row _) as [item|].
    2: { split; [done|]. by intros (? & ? & ? & _). }
    destruct (parentElement node) as [style|].
    2: { split; [done|]. by intros (? & ? & _ & _ & ? & _). }
    split.
    + intros [= <- <-]. by exists item, style.
    + intros (item' & style' & [= <-] & _ & [= <-] & -> & ->). done.
  - split; [done|]. intros (? & ? & _ & ? & _). lia.
Qed.

Lemma first_row_None txt :
  first_row txt = None ↔
  ∀ item, item ∈ statusMap → includes txt (text item) = false.
Proof.
  unfold first_row. split.
  - intros H item Hin. apply list_elem_of_In in Hin.
    by apply (find_none _ _ H).
  - intros H. destruct (List.find _ _) as [item|] eqn:E; [|done].
    apply find_some in E as [Hin Hinc]. apply list_elem_of_In in Hin.
    rewrite (H _ Hin) in Hinc. done.
Qed.

Lemma get_status_of_scan pg document :
  status_document pg = Ok document →
  _get_order_status pg =
    match bestMatch (scan document) with
    | Some m => match_status m
    | None => "unknown"
    end.
Proof. unfold _get_order_status. by intros ->. Qed.

Lemma candidate_processing style :
  candidate (processing_node style)
  = Some (10 + Z.of_N (fontSize style)
          + (if 500 <? Z.of_N (fontWeight style) then 5 else 0),
          "processing").
Proof.
  apply candidate_iff. eexists (StatusEntry "处理中" "processing" 10), style.
  split_and!; try done. vm_compute. lia.
Qed.

Lemma candidate_completed style :
  candidate (completed_node style)
  = Some (40 + Z.of_N (fontSize style)
          + (if 500 <? Z.of_N (fontWeight style) then 5 else 0),
          "completed").
Proof.
  apply candidate_iff. eexists (StatusEntry "交易成功" "completed" 40), style.
  split_and!; try done. vm_compute. lia.
Qed.

Lemma candidate_cancelled style :
  candidate (TextNode "买家取消了订单" (Some style))
  = Some (100 + Z.of_N (fontSize style)
          + (if 500 <? Z.of_N (fontWeight style) then 5 else 0),
          "cancelled").
Proof.
  apply candidate_iff.
  eexists (StatusEntry "买家取消了订单" "cancelled" 100), style.
  split_and!; try done. vm_compute. lia.
Qed.

(** The status found in a document is determined by its candidates. *)
Lemma status_of_candidates pg document :
  status_document pg = Ok document →
  let cands := omap candidate (take 5000 document) in
  (cands = [] → _get_order_status pg = "unknown")
  ∧ (cands ≠ [] → ∃ sc, first_best cands sc (_get_order_status pg)).
Proof.
  intros Hdoc cands. rewrite (get_status_of_scan _ _ Hdoc).
  pose proof (scan_first_best document) as Hinv. unfold scan_inv in Hinv.
  fold cands in Hinv.
  destruct (bestMatch (scan document)) as [m|].
  - destruct Hinv as [_ Hb]. split.
    + intros Hnil. destruct Hb as (i & Hi & _). rewrite Hnil in Hi. done.
    + intros _. eauto.
  - destruct Hinv as [_ Hnil]. split; [done|]. done.
Qed.

(** C4: the status heuristic over a document of text nodes with parent
    styles.  Among the first 5000 nodes, those whose trimmed text is at
    most 100 long and contains a ranked phrase are scored
    [basePriority + fontSize + (5 if fontWeight > 500)], the base priority
    being the highest among the phrases the text contains; the scan
    returns the status of the highest-scoring one (the earliest among
    equals) and ['unknown'] when there is none.  A lone
    '买家取消了订单' gives ['cancelled']; '处理中' in a small, normal
    weight face beside '交易成功' in a larger, bold face gives
    ['completed'] in either order. *)
Theorem status_scan_selects_highest_score (pg : page) :
  (∀ document,
     status_document pg = Ok document →
     let visited := take 5000 document in
     let cands := omap candidate visited in
     (∀ node sc st,
        candidate node = Some (sc, st) ↔
        ∃ item style,
          item ∈ statusMap
          ∧ includes (js_trim (textContent node)) (text item) = true
          ∧ (∀ item', item' ∈ statusMap →
               includes (js_trim (textContent node)) (text item') = true →
               priority item' ≤ priority item
               ∧ (priority item' = priority item → status item' = status item))
          ∧ (utf16_length (js_trim (textContent node)) ≤ 100)%nat
          ∧ parentElement node = Some style
          ∧ sc = priority item + Z.of_N (fontSize style)
                 + (if 500 <? Z.of_N (fontWeight style) then 5 else 0)
          ∧ st = status item)
     ∧ (cands = [] → _get_order_status pg = "unknown")
     ∧ (cands ≠ [] → ∃ sc, first_best cands sc (_get_order_status pg)))
  ∧ (∀ style,
       status_document pg = Ok [TextNode "买家取消了订单" (Some style)] →
       _get_order_status pg = "cancelled")
  ∧ (∀ small large,
       (fontSize small < fontSize large)%N →
       (fontWeight small ≤ 500)%N → (500 < fontWeight large)%N →
       status_document pg = Ok [processing_node small; completed_node large]
       ∨ status_document pg = Ok [completed_node large; processing_node small] →
       _get_order_status pg = "completed").
Proof.
  split_and!.
  - intros document Hdoc visited cands. split.
    2: { by apply status_of_candidates. }
    intros node sc st. rewrite candidate_iff. split.
    + intros (item & style & Hrow & Hlen & Hpar & -> & ->).
      exists item, style.
      destruct (first_row_Some _ _ Hrow) as [Hin Hinc].
      split_and!; try done.
      intros item' Hin' Hinc'. split.
      * by apply (first_row_highest _ _ Hrow).
      * by apply statusMap_ties.
    + intros (item & style & Hin & Hinc & Hmax & Hlen & Hpar & -> & ->).
      destruct (first_row (js_trim (textContent node))) as [item0|] eqn:Hrow.
      2: { rewrite first_row_None in Hrow. rewrite (Hrow _ Hin) in Hinc. done. }
      exists item0, style.
      destruct (first_row_Some _ _ Hrow) as [Hin0 Hinc0].
      destruct (Hmax _ Hin0 Hinc0) as [Hle Htie].
      pose proof (first_row_highest _ _ Hrow _ Hin Hinc) as Hge.
      assert (priority item0 = priority item) as Heq by lia.
      rewrite Heq, (Htie Heq). done.
  - intros style Hdoc.
    destruct (status_of_candidates _ _ Hdoc) as [_ Hbest].
    rewrite take_ge in Hbest by (simpl; lia).
    cbn [omap list_omap] in Hbest. rewrite candidate_cancelled in Hbest.
    destruct Hbest as (sc & i & Hi & _); [done|].
    destruct i as [|[|i]]; simpl in Hi; congruence.
  - intros small large Hsize Hnormal Hbold Hdoc.
    assert ((500 <? Z.of_N (fontWeight small)) = false) as Hw1
      by (apply Z.ltb_ge; lia).
    assert ((500 <? Z.of_N (fontWeight large)) = true) as Hw2
      by (apply Z.ltb_lt; lia).
    destruct Hdoc as [Hdoc|Hdoc];
      destruct (status_of_candidates _ _ Hdoc) as [_ Hbest];
      rewrite take_ge in Hbest by (simpl; lia);
      cbn [omap list_omap] in Hbest;
      rewrite candidate_processing, candidate_completed, Hw1, Hw2 in Hbest;
      (destruct Hbest as (sc & i & Hi & Hmax & _); [done|]).
    + pose proof (Hmax 1%nat _ eq_refl) as H1.
      destruct i as [|[|i]]; simpl in *; [|congruence|done].
      injection Hi as <- _. lia.
    + pose proof (Hmax 0%nat _ eq_refl) as H1.
      destruct i as [|[|i]]; simpl in *; [congruence| |done].
      injection Hi as <- _. lia.
Qed.

End StatusScanClaim.

(** ** The cache gate *)

Section CacheGateFacts.

(** A value that counts as false is never a positive number: the guard
    [if amount:] rejects nothing the parse would accept. *)
Lemma falsy_not_positive amount :
  truthy amount = false → ¬ amount_is_positive_number amount.
Proof.
  intros Hf (x & Hx & Hpos). revert Hx.
  destruct amount as [ | [ | ] | z | r | s | [ | v l ] | [ | kv d ] ]; simpl in Hf; try done.
  - apply negb_false_iff, Z.eqb_eq in Hf. subst z.
    vm_compute. intros [= <-]. done.
  - apply negb_false_iff, orb_true_iff in Hf.
    destruct Hf as [Hr|Hr]; apply bool_decide_eq_true in Hr; subst r;
      vm_compute; intros [= <-]; done.
  - apply negb_false_iff, bool_decide_eq_true in Hf. subst s. done.
Qed.

Lemma amount_valid_spec amount :
  amount_valid amount = true ↔ amount_is_positive_number amount.
Proof.
  unfold amount_valid. destruct (truthy amount) eqn:Ht.
  - fold (stripped_amount amount). unfold amount_is_positive_number.
    destruct (py_float (stripped_amount amount)) as [x|].
    + split; [by exists x|]. by intros (? & [= <-] & ?).
    + split; [done|]. by intros (? & ? & _).
  - split; [done|]. intros H. by apply falsy_not_positive in H.
Qed.

Lemma dict_truthy_lookup (d : gmap string pyval) k :
  is_Some (d !! k) → dict_truthy d = true.
Proof.
  intros Hk. unfold dict_truthy. apply negb_true_iff, bool_decide_eq_false.
  intros Hdom. apply elem_of_dom in Hk. rewrite Hdom in Hk. set_solver.
Qed.

End CacheGateFacts.


(** ** Status fusion *)

Section FuseFacts.
Context (order_id url title now : string) (api_data dom_data : gmap string pyval).

Local Ltac fuse_lookup :=
  unfold fuse; cbn zeta;
  repeat case_match;
  repeat (rewrite lookup_insert_ne by done);
  first [ by rewrite lookup_insert_eq | done ].

Lemma fuse_api_status :
  fuse order_id url title now api_data dom_data !! "api_status"
  = Some (get api_data "order_status" (PyStr "unknown")).
Proof. fuse_lookup. Qed.

Lemma fuse_dom_status :
  fuse order_id url title now api_data dom_data !! "dom_status"
  = Some (let dom_status := get dom_data "order_status_dom" PyNone in
          if truthy dom_status then dom_status else PyStr "not_detected").
Proof. fuse_lookup. Qed.

Lemma fuse_order_status :
  fuse order_id url title now api_data dom_data !! "order_status"
  = Some (let dom_status := get dom_data "order_status_dom" PyNone in
          if truthy dom_status && negb (eq_str dom_status "unknown")
          then dom_status
          else get api_data "order_status" (PyStr "unknown")).
Proof. fuse_lookup. Qed.

Lemma fuse_from_cache :
  fuse order_id url title now api_data dom_data !! "from_cache"
  = Some (PyBool false).
Proof. fuse_lookup. Qed.

Lemma fuse_quantity :
  fuse order_id url title now api_data dom_data !! "quantity"
  = Some (get dom_data "quantity" (PyStr "1")).
Proof. fuse_lookup. Qed.

End FuseFacts.

(** ** Code that fills a dict *)

Section FillingFacts.
Context (k : string).

Lemma untouched_ret {A} (a : A) : untouched k (mret a).
Proof. by intros d. Qed.

Lemma untouched_lift {A} (r : result A) : untouched k (lift r).
Proof. by intros d. Qed.

Lemma untouched_has_item k' : untouched k (has_item k').
Proof. by intros d. Qed.

Lemma untouched_set_item k' v : k' ≠ k → untouched k (set_item k' v).
Proof. intros Hne d. simpl. by rewrite lookup_insert_ne. Qed.

Lemma untouched_bind {A B} (m : filling A) (f : A → filling B) :
  untouched k m → (∀ a, untouched k (f a)) → untouched k (m ≫= f).
Proof.
  intros Hm Hf d. unfold mbind, filling_bind.
  specialize (Hm d). destruct (m d) as [d' [a|e]]; simpl in *; [|done].
  by rewrite Hf.
Qed.

Lemma untouched_when b (m : filling unit) :
  untouched k m → untouched k (when b m).
Proof. destruct b; [done|]. intros _. apply untouched_ret. Qed.

Lemma writes_last_set_item v : writes_last k v (set_item k v).
Proof. intros d _. right. simpl. by rewrite lookup_insert_eq. Qed.

Lemma writes_last_bind v {A B} (m : filling A) (f : A → filling B) :
  untouched k m → (∀ a, writes_last k v (f a)) → writes_last k v (m ≫= f).
Proof.
  intros Hm Hf d Hd. unfold mbind, filling_bind.
  specialize (Hm d). destruct (m d) as [d' [a|e]]; simpl in *.
  - apply Hf. congruence.
  - left. congruence.
Qed.

End FillingFacts.

Ltac solve_elem :=
  repeat first [apply list_elem_of_here | apply list_elem_of_further].

Section DomScanFacts.

Lemma untouched_write_found k k' found :
  k' ≠ k → untouched k (write_found k' found).
Proof. intros. destruct found; simpl; [by apply untouched_set_item|apply untouched_ret]. Qed.

Lemma untouched_spec_fields k element :
  k ≠ "spec_name" → k ≠ "spec_value" → untouched k (spec_fields element).
Proof.
  intros. unfold spec_fields.
  apply untouched_bind; [apply untouched_lift|]. intros [txt|]; [|apply untouched_ret].
  destruct (split_once _ _) as [[name value]|]; [|apply untouched_ret].
  apply untouched_bind; [|intros]; by apply untouched_set_item.
Qed.

Lemma untouched_quantity_field k element :
  k ≠ "quantity" → untouched k (quantity_field element).
Proof.
  intros. unfold quantity_field.
  apply untouched_bind; [apply untouched_lift|]. intros [txt|]; [|apply untouched_ret].
  case_bool_decide; [apply untouched_ret|]. by apply untouched_set_item.
Qed.

(** The scan either stops before the status or records what
    [_get_order_status] returned. *)
Lemma dom_status_recorded pg :
  _parse_dom_content pg !! "order_status_dom" = None
  ∨ _parse_dom_content pg !! "order_status_dom"
    = Some (PyStr (_get_order_status pg)).
Proof.
  unfold _parse_dom_content, filled.
  assert (writes_last "order_status_dom" (PyStr (_get_order_status pg))
            (scan_body pg)) as H.
  2: { by apply H. }
  unfold scan_body.
  apply writes_last_bind; [apply untouched_lift|]. intros amount.
  apply writes_last_bind.
  { destruct amount; [|apply untouched_ret].
    apply untouched_when. by apply untouched_set_item. }
  intros _.
  do 4 (apply writes_last_bind; [by apply untouched_write_found|]; intros _).
  apply writes_last_bind; [apply untouched_lift|]. intros sku.
  apply writes_last_bind.
  { destruct (sku !! 0%nat); [by apply untouched_spec_fields|apply untouched_ret]. }
  intros _.
  apply writes_last_bind.
  { destruct (sku !! 1%nat); [by apply untouched_quantity_field|apply untouched_ret]. }
  intros _.
  apply writes_last_bind; [apply untouched_has_item|]. intros has_quantity.
  apply writes_last_bind.
  { apply untouched_when. by apply untouched_set_item. }
  intros _. apply writes_last_set_item.
Qed.


Lemma statusMap_statuses :
  Forall (λ item, status item ∈ status_names) statusMap.
Proof.
  unfold statusMap, status_names.
  repeat (constructor; [simpl; solve_elem|]). constructor.
Qed.

(** The status scan answers with one of the seven status names. *)
Lemma get_order_status_enum pg : _get_order_status pg ∈ status_names.
Proof.
  unfold _get_order_status.
  destruct (status_document pg) as [document|e]; [|unfold status_names; solve_elem].
  pose proof (scan_first_best document) as Hinv. unfold scan_inv in Hinv.
  destruct (bestMatch (scan document)) as [m|]; [|unfold status_names; solve_elem].
  destruct Hinv as [_ (i & Hi & _)].
  apply list_elem_of_lookup_2, list_elem_of_omap in Hi
    as (node & _ & Hc).
  apply candidate_iff in Hc as (item & style & Hrow & _ & _ & _ & ->).
  apply first_row_Some in Hrow as [Hin _].
  pose proof statusMap_statuses as H. rewrite Forall_forall in H. by apply H.
Qed.

Lemma status_names_truthy s : s ∈ status_names → truthy (PyStr s) = true.
Proof.
  unfold status_names. intros H. simpl.
  apply negb_true_iff, bool_decide_eq_false. intros ->.
  repeat (apply elem_of_cons in H as [H|H]; [discriminate|]).
  by apply elem_of_nil in H.
Qed.

End DomScanFacts.

(** C2: status fusion.  For the API-derived status and the DOM-derived
    status of one visit (the latter absent when the scan stopped early),
    the fused [order_status] is the DOM status when it is present and not
    ['unknown'], and the API status otherwise; [api_status] records the API
    status and [dom_status] the DOM status as it was found, with
    ['not_detected'] standing for an absent one. *)
Theorem fused_status_prefers_dom (order_id url title now : string)
    (api_data : gmap string pyval) (pg : page) :
  let dom_data := _parse_dom_content pg in
  let api_status := get api_data "order_status" (PyStr "unknown") in
  let record := fuse order_id url title now api_data dom_data in
  record !! "api_status" = Some api_status
  ∧ match dom_data !! "order_status_dom" with
    | Some dom_status =>
        dom_status = PyStr (_get_order_status pg)
        ∧ record !! "dom_status" = Some dom_status
        ∧ record !! "order_status"
          = Some (if eq_str dom_status "unknown" then api_status
                  else dom_status)
    | None =>
        record !! "dom_status" = Some (PyStr "not_detected")
        ∧ record !! "order_status" = Some api_status
    end.
Proof.
  intros dom_data api_status record. subst record.
  rewrite fuse_api_status, fuse_dom_status, fuse_order_status.
  split; [done|]. unfold get. fold dom_data.
  destruct (dom_status_recorded pg) as [Hd|Hd]; fold dom_data in Hd;
    rewrite Hd; simpl; [done|].
  pose proof (status_names_truthy _ (get_order_status_enum pg)) as Ht.
  simpl in Ht. rewrite Ht. simpl.
  split_and!; try done. by destruct (bool_decide (_ = "unknown")).
Qed.


(** ** The batch runners *)

Section BatchFacts.
Context {delay : Type}.
Context (session : string → bool → result (option (gmap string pyval))).

Lemma process_single_order_entry force_refresh order_id index :
  process_single_order session force_refresh order_id index
  = Ok (entry_of session force_refresh order_id).
Proof.
  unfold process_single_order, entry_of.
  destruct (session order_id force_refresh) as [[record|]|e]; try done.
  by destruct (dict_truthy record).
Qed.

Lemma tasks_entries force_refresh order_ids :
  imap (λ index order_id,
          process_single_order session force_refresh order_id index)
       order_ids
  = Ok <$> (entry_of session force_refresh <$> order_ids).
Proof.
  rewrite <- list_fmap_compose, <- imap_const.
  apply imap_ext. intros i x _. simpl.
  apply process_single_order_entry.
Qed.

(** When no task let an exception through, the loop over the gathered
    results copies them. *)
Lemma collect_entries order_ids entries :
  ∀ i processed (log : list (event delay)),
    collect order_ids i (Ok <$> entries) processed log
    = (log, Returned (processed ++ entries)).
Proof.
  induction entries as [|entry entries IH]; intros i processed log; simpl.
  - by rewrite app_nil_r.
  - rewrite IH. by rewrite <- (assoc_L (++)).
Qed.

Lemma gather_permits max_concurrent tasks (log : list (event delay)) :
  0 < max_concurrent → gather max_concurrent tasks log = (log, Returned tasks).
Proof.
  intros HM. unfold gather. destruct tasks; [done|].
  by replace (max_concurrent =? 0) with false by lia.
Qed.

(** With at least one permit the batch returns the entries of its
    orders, in order. *)
Lemma process_orders_batch_returns order_ids max_concurrent force_refresh
    (log : list (event delay)) :
  0 < max_concurrent →
  process_orders_batch session order_ids max_concurrent force_refresh log
  = (log ++ [BatchCall order_ids max_concurrent force_refresh],
     Returned (entry_of session force_refresh <$> order_ids)).
Proof.
  intros HM. unfold process_orders_batch, mbind, run_bind, emit.
  replace (max_concurrent <? 0) with false by lia. simpl.
  rewrite tasks_entries, gather_permits by done.
  by rewrite collect_entries.
Qed.

(** Whatever its outcome, a call of the batch runner adds exactly its own
    event to the log. *)
Lemma process_orders_batch_log order_ids max_concurrent force_refresh
    (log : list (event delay)) :
  (process_orders_batch session order_ids max_concurrent force_refresh log).1
  = log ++ [BatchCall order_ids max_concurrent force_refresh].
Proof.
  unfold process_orders_batch, mbind, run_bind, emit.
  destruct (max_concurrent <? 0); simpl; [done|].
  rewrite tasks_entries. unfold gather.
  destruct order_ids as [|order_id rest]; simpl; [done|].
  destruct (max_concurrent =? 0); simpl; [done|].
  by rewrite collect_entries.
Qed.

End BatchFacts.

(** C3: the bounded batch.  With at least one permit, the batch over any
    list of order ids returns, whatever the sessions do, exactly one entry
    per requested id, in input order.  The entry of an id is the record of
    its session; when the session lets an exception escape it is a failure
    entry carrying that id and the message of the exception, and when the
    session yields nothing it is a failure entry carrying that id and a
    fixed message.  The other entries are not affected. *)
Theorem batch_one_entry_per_order {delay : Type}
    (session : string → bool → result (option (gmap string pyval)))
    (order_ids : list string) (max_concurrent : Z) (force_refresh : bool)
    (log : list (event delay)) :
  0 < max_concurrent →
  ∃ results,
    process_orders_batch session order_ids max_concurrent force_refresh log
    = (log ++ [BatchCall order_ids max_concurrent force_refresh],
       Returned results)
    ∧ length results = length order_ids
    ∧ ∀ (i : nat) order_id,
        order_ids !! i = Some order_id →
        ∃ entry,
          results !! i = Some entry
          ∧ match session order_id force_refresh with
            | Err e =>
                entry = failure_entry order_id e
                ∧ entry !! "order_id" = Some (PyStr order_id)
                ∧ entry !! "error" = Some (PyStr e)
            | Ok None =>
                entry = failure_entry order_id "获取订单信息失败"
                ∧ entry !! "order_id" = Some (PyStr order_id)
                ∧ is_Some (entry !! "error")
            | Ok (Some record) =>
                if dict_truthy record then entry = record
                else entry = failure_entry order_id "获取订单信息失败"
            end.
Proof.
  intros HM. exists (entry_of session force_refresh <$> order_ids).
  split_and!.
  - by apply process_orders_batch_returns.
  - by rewrite length_fmap.
  - intros i order_id Hi. exists (entry_of session force_refresh order_id).
    split; [by rewrite list_lookup_fmap, Hi|].
    unfold entry_of.
    destruct (session order_id force_refresh) as [[record|]|e]; try done.
    by destruct (dict_truthy record).
Qed.



Section ChunkFacts.
Context {A : Type}.

Lemma concat_chunks_of (size : nat) (l : list A) :
  concat (chunks_of size l) = l.
Proof.
  funelim (chunks_of size l); simp chunks_of; simpl.
  - done.
  - by rewrite app_nil_r.
  - rewrite H. by rewrite take_drop.
Qed.

Lemma chunks_of_sizes (size : nat) (l : list A) (i : nat) c :
  (0 < size)%nat →
  chunks_of size l !! i = Some c →
  (0 < length c ≤ size)%nat
  ∧ ((i + 1 < length (chunks_of size l))%nat → length c = size).
Proof.
  intros Hs. revert i c.
  funelim (chunks_of size l); simp chunks_of; intros i c Hi.
  - done.
  - lia.
  - destruct i as [|i]; simpl in Hi.
    + injection Hi as <-. simpl. rewrite length_take. split; [lia|].
      intros Hlen.
      destruct (drop n l) as [|y rest] eqn:Ed.
      { simp chunks_of in Hlen. simpl in Hlen. lia. }
      assert (n < length l)%nat; [|lia].
      apply lookup_lt_is_Some. rewrite <- (Nat.add_0_r n),
        <- lookup_drop, Ed. by eexists.
    + destruct (H ltac:(lia) _ _ Hi) as [H1 H2]. split; [done|].
      intros Hlen. apply H2. simpl in Hlen. lia.
Qed.

(** The number of chunks is the quotient rounded up. *)
Lemma chunks_of_count (size : nat) (l : list A) :
  (0 < size)%nat →
  (length l ≤ length (chunks_of size l) * size < length l + size)%nat.
Proof.
  intros Hs. funelim (chunks_of size l); simp chunks_of.
  - simpl. lia.
  - lia.
  - specialize (H ltac:(lia)). rewrite length_drop in H.
    cbn [length].
    set (k := length (chunks_of (S n) (drop n l))) in *.
    destruct (decide (n ≤ length l)%nat) as [Hle|Hgt]; [nia|].
    assert (k = 0%nat) as -> by nia. lia.
Qed.

End ChunkFacts.

Section SliceFacts.
Context {A : Type}.

Lemma chunks_of_unfold (size : nat) (l : list A) :
  (0 < size)%nat → l ≠ [] →
  chunks_of size l = take size l :: chunks_of size (drop size l).
Proof.
  intros Hs Hl. destruct size as [|n]; [lia|].
  destruct l as [|x l]; [done|]. by simp chunks_of.
Qed.

Lemma chunks_of_drop (size : nat) (k : nat) : ∀ l : list A,
  (0 < size)%nat →
  drop k (chunks_of size l) = chunks_of size (drop (k * size) l).
Proof.
  induction k as [|k IH]; intros l Hs; [done|].
  destruct l as [|x l].
  - rewrite drop_nil. simp chunks_of. by rewrite drop_nil.
  - rewrite chunks_of_unfold by done. simpl drop at 1.
    rewrite IH by done. by rewrite drop_drop.
Qed.

Lemma with_cooldowns_count {delay} (d : delay) calls :
  Forall (λ e, is_cooldown e = false) calls →
  length (filter (λ e, is_cooldown e = true) (with_cooldowns d calls))
  = (length calls - 1)%nat.
Proof.
  induction 1 as [|call calls Hc Hall IH]; [done|].
  destruct calls as [|call' calls].
  - simpl. rewrite filter_cons_False, filter_nil by congruence. done.
  - change (with_cooldowns d (call :: call' :: calls))
      with (call :: Cooldown d :: with_cooldowns d (call' :: calls)).
    rewrite filter_cons_False by congruence.
    rewrite filter_cons_True by done.
    simpl length in *. rewrite IH. lia.
Qed.

Lemma take_min_length (l : list A) (n : nat) :
  take (n `min` length l) l = take n l.
Proof.
  destruct (decide (n ≤ length l)%nat).
  - by rewrite Nat.min_l.
  - rewrite Nat.min_r, firstn_all, take_ge by lia. done.
Qed.

Lemma py_slice_chunk (l : list A) (size k : nat) :
  (0 < size)%nat →
  py_slice l (Z.of_nat k * Z.of_nat size)
    (Z.min ((Z.of_nat k + 1) * Z.of_nat size) (Z.of_nat (length l)))
  = take size (drop (k * size) l).
Proof.
  intros Hs.
  replace (Z.of_nat k * Z.of_nat size) with (Z.of_nat (k * size)) by lia.
  replace ((Z.of_nat k + 1) * Z.of_nat size)
    with (Z.of_nat (k * size + size)) by lia.
  generalize (k * size)%nat. intros start.
  unfold py_slice.
  replace (Z.of_nat start <? 0) with false
    by (symmetry; apply Z.ltb_ge; lia).
  replace (Z.min (Z.of_nat (start + size)) (Z.of_nat (length l)) <? 0)
    with false by (symmetry; apply Z.ltb_ge; lia).
  destruct (decide (start ≤ length l)%nat) as [Hle|Hgt].
  - replace (Z.to_nat (Z.min (Z.of_nat start) (Z.of_nat (length l))))
      with start by lia.
    replace (Z.to_nat _)
      with (size `min` length (drop start l))%nat
      by (rewrite length_drop; lia).
    apply take_min_length.
  - replace (Z.to_nat (Z.min (Z.of_nat start) (Z.of_nat (length l))))
      with (length l) by lia.
    rewrite drop_all, (drop_ge l start) by lia. by rewrite !take_nil.
Qed.

End SliceFacts.

Section ChunkedFacts.
Context {delay : Type}.
Context (session : string → bool → result (option (gmap string pyval))).
Context (order_ids : list string) (size : nat) (max_concurrent : Z)
  (batch_delay : delay).
Hypothesis size_positive : (0 < size)%nat.
Hypothesis permits : 0 < max_concurrent.

Let chunks := chunks_of size order_ids.
Let call (c : list string) : event delay := BatchCall c max_concurrent false.

(** The loop from batch [k] on, with [n] batches to go. *)
Lemma each_batch_chunks (n : nat) : ∀ (k : nat) all_results log,
  (k + n)%nat = length chunks →
  each_batch session order_ids (Z.of_nat size) max_concurrent batch_delay
    (Z.of_nat (length order_ids)) (Z.of_nat (length chunks))
    (Z.of_nat <$> seq k n) all_results log
  = (log ++ with_cooldowns batch_delay (call <$> drop k chunks),
     Returned
       (all_results
        ++ concat (entries_of session false <$> drop k chunks))).
Proof.
  induction n as [|n IH]; intros k all_results log Hk.
  - rewrite drop_ge by lia. simpl. by rewrite !app_nil_r.
  - destruct (drop k chunks) as [|c rest] eqn:Ed.
    { apply (f_equal length) in Ed. rewrite length_drop in Ed.
      simpl in Ed. lia. }
    assert (c = take size (drop (k * size) order_ids)
            ∧ rest = drop (S k) chunks) as [Hc Hrest].
    { subst chunks. rewrite chunks_of_drop in Ed by done.
      assert (drop (k * size) order_ids ≠ []) as Hne.
      { intros Hnil. rewrite Hnil in Ed. by simp chunks_of in Ed. }
      rewrite chunks_of_unfold in Ed by done. injection Ed as <- <-.
      split; [done|].
      rewrite drop_drop, chunks_of_drop by done.
      f_equal. f_equal. lia. }
    cbn [seq fmap list_fmap each_batch].
    rewrite py_slice_chunk by done. rewrite <- Hc.
    unfold mbind at 1, run_bind at 1.
    rewrite process_orders_batch_returns by done.
    unfold mbind, run_bind.
    destruct n as [|n].
    + replace (Z.of_nat k <? Z.of_nat (length chunks) - 1)
        with false by lia.
      cbn [mret run_ret].
      rewrite (IH (S k)) by lia.
      rewrite <- Hrest. rewrite (drop_ge chunks) in Hrest by lia.
      subst rest. simpl. by rewrite !app_nil_r.
    + replace (Z.of_nat k <? Z.of_nat (length chunks) - 1)
        with true by lia.
      cbn [emit].
      rewrite (IH (S k)) by lia.
      rewrite <- Hrest.
      destruct rest as [|c' rest].
      { apply (f_equal length) in Hrest. rewrite length_drop in Hrest.
        simpl in Hrest. lia. }
      cbn [fmap list_fmap with_cooldowns concat].
      by rewrite <- !(assoc_L (++)).
Qed.

End ChunkedFacts.

Section ChunkedClaim.
Context {delay : Type}.

Lemma concat_entries session force (chunks : list (list string)) :
  concat (entries_of session force <$> chunks)
  = entries_of session force (concat chunks).
Proof.
  induction chunks as [|c chunks IH]; [done|].
  rewrite fmap_cons. cbn [concat]. rewrite IH.
  unfold entries_of. by rewrite fmap_app.
Qed.

Lemma total_batches_count (order_ids : list string) (batch_size : Z) :
  0 < batch_size →
  (Z.of_nat (length order_ids) + batch_size - 1) / batch_size
  = Z.of_nat (length (chunks_of (Z.to_nat batch_size) order_ids)).
Proof.
  intros HS.
  pose proof (chunks_of_count (Z.to_nat batch_size) order_ids ltac:(lia))
    as Hc.
  set (k := length (chunks_of (Z.to_nat batch_size) order_ids)) in *.
  symmetry.
  apply (Z.div_unique_pos _ _ _
           (Z.of_nat (length order_ids) + batch_size - 1
            - batch_size * Z.of_nat k)); nia.
Qed.

(** The chunked run as a whole. *)
Lemma chunked_batches_run
    (session : string → bool → result (option (gmap string pyval)))
    (order_ids : list string) (batch_size max_concurrent : Z)
    (batch_delay : delay) (log : list (event delay)) :
  0 < batch_size → 0 < max_concurrent →
  process_orders_in_batches session order_ids batch_size max_concurrent
    batch_delay log
  = (log ++ with_cooldowns batch_delay
              ((λ c, BatchCall c max_concurrent false)
                 <$> chunks_of (Z.to_nat batch_size) order_ids),
     Returned (entries_of session false order_ids)).
Proof.
  intros HS HM. set (chunks := chunks_of (Z.to_nat batch_size) order_ids).
  unfold process_orders_in_batches.
  replace (batch_size =? 0) with false by (symmetry; apply Z.eqb_neq; lia).
  rewrite total_batches_count by done. fold chunks.
  unfold range. rewrite Nat2Z.id.
  pose proof (each_batch_chunks session order_ids (Z.to_nat batch_size)
                max_concurrent batch_delay ltac:(lia) HM
                (length chunks) 0 [] log eq_refl) as H.
  rewrite Z2Nat.id in H by lia. fold chunks in H.
  rewrite H. subst chunks. rewrite drop_0.
  by rewrite concat_entries, concat_chunks_of.
Qed.

(** C8: the chunked run.  For a positive chunk size [S] (and at least one
    permit), [N] ids are cut into consecutive chunks of [S] ids, the last
    one possibly shorter, [ceil(N/S)] in all; the batch runner is called
    on the chunks one after the other, with a cooldown of [D] after each
    chunk but the last; the result is the concatenation of the results of
    the chunks, which holds the entries of the ids in input order.  With
    25 ids and chunks of 10 there are chunks of 10, 10 and 5 ids and two
    cooldowns. *)
Theorem chunked_fetch_partitions
    (session : string → bool → result (option (gmap string pyval)))
    (order_ids : list string) (batch_size max_concurrent : Z)
    (batch_delay : delay) (log : list (event delay)) :
  0 < batch_size → 0 < max_concurrent →
  let chunks := chunks_of (Z.to_nat batch_size) order_ids in
  let calls := (λ c, BatchCall c max_concurrent false) <$> chunks in
  let cooldowns :=
    length (filter (λ e, is_cooldown e = true)
              (with_cooldowns batch_delay calls)) in
  process_orders_in_batches session order_ids batch_size max_concurrent
    batch_delay log
  = (log ++ with_cooldowns batch_delay calls,
     Returned (concat (entries_of session false <$> chunks)))
  ∧ concat (entries_of session false <$> chunks)
    = entries_of session false order_ids
  ∧ concat chunks = order_ids
  ∧ Z.of_nat (length order_ids)
    ≤ Z.of_nat (length chunks) * batch_size
    < Z.of_nat (length order_ids) + batch_size
  ∧ (∀ (i : nat) c,
       chunks !! i = Some c →
       0 < Z.of_nat (length c) ≤ batch_size
       ∧ ((i + 1 < length chunks)%nat → Z.of_nat (length c) = batch_size))
  ∧ cooldowns = (length chunks - 1)%nat
  ∧ (length order_ids = 25%nat → batch_size = 10 →
     length <$> chunks = [10; 10; 5]%nat ∧ cooldowns = 2%nat).
Proof.
  intros HS HM chunks calls cooldowns.
  assert (Hcount : cooldowns = (length chunks - 1)%nat).
  { subst cooldowns calls. rewrite with_cooldowns_count.
    - by rewrite length_fmap.
    - apply Forall_fmap, Forall_true. done. }
  split_and!.
  - rewrite chunked_batches_run by done. f_equal. f_equal.
    subst chunks. by rewrite concat_entries, concat_chunks_of.
  - rewrite concat_entries. f_equal. apply concat_chunks_of.
  - apply concat_chunks_of.
  - pose proof (chunks_of_count (Z.to_nat batch_size) order_ids
                  ltac:(lia)) as Hc.
    fold chunks in Hc. nia.
  - pose proof (chunks_of_count (Z.to_nat batch_size) order_ids
                  ltac:(lia)) as Hc.
    fold chunks in Hc. nia.
  - intros i c Hi.
    destruct (chunks_of_sizes (Z.to_nat batch_size) order_ids i c
                ltac:(lia) Hi) as [H1 H2].
    split; [lia|]. intros Hlt. specialize (H2 Hlt). lia.
  - done.
  - intros HN ->. rewrite Hcount. subst chunks.
    change (Z.to_nat 10) with 10%nat.
    do 25 (destruct order_ids as [|? order_ids]; [done|]).
    destruct order_ids; [|done].
    simp chunks_of. simpl. simp chunks_of. simpl. simp chunks_of. done.
Qed.

End ChunkedClaim.

Section CacheRecordFacts.
Context (order_id now : string) (stored_id : pyval)
  (row : gmap string pyval).

Lemma cached_record_from_cache :
  cached_record order_id now stored_id row !! "from_cache"
  = Some (PyBool true).
Proof. done. Qed.

Lemma cached_record_order_status :
  cached_record order_id now stored_id row !! "order_status"
  = Some (get row "order_status" (PyStr "unknown")).
Proof. done. Qed.

End CacheRecordFacts.

Section SessionFacts.
Context (w : world) (use_pool : bool) (order_id : string).

(** A stored row with its order id and a valid amount is answered from
    the cache when no refresh is forced. *)
Lemma session_cache_hit row stored_id :
  get_order_by_id w order_id = Ok (Some row) →
  row !! "order_id" = Some stored_id →
  amount_valid (get row "amount" (PyStr "")) = true →
  fetch_order_complete w use_pool order_id false
  = Some (cached_record order_id (time_time w) stored_id row).
Proof.
  intros Hdb Hid Hv. unfold fetch_order_complete, session_body.
  rewrite Hdb. simpl. unfold cache_gate.
  rewrite (dict_truthy_lookup row "order_id") by eauto.
  rewrite Hv, Hid. done.
Qed.

End SessionFacts.

Section ChunkedForce.
Context {delay : Type}.
Context (session : string → bool → result (option (gmap string pyval))).

Lemma each_batch_unforced order_ids batch_size max_concurrent
    (batch_delay : delay) total_orders total_batches indices :
  ∀ all_results log,
  ∃ new,
    (each_batch session order_ids batch_size max_concurrent batch_delay
       total_orders total_batches indices all_results log).1
    = log ++ new
    ∧ Forall unforced new.
Proof.
  induction indices as [|batch_index indices IH]; intros all_results log.
  - exists []. by rewrite app_nil_r.
  - cbn [each_batch]. unfold mbind at 1, run_bind at 1.
    set (ids := py_slice _ _ _).
    pose proof (process_orders_batch_log session ids max_concurrent false log)
      as Hlog.
    destruct (process_orders_batch _ _ _ _ _) as [log1 [results|e|]];
      simpl in Hlog; subst log1.
    + unfold mbind, run_bind.
      destruct (batch_index <? total_batches - 1); simpl.
      * destruct (IH (all_results ++ results)
                    ((log ++ [BatchCall ids max_concurrent false])
                     ++ [Cooldown batch_delay])) as (new & -> & Hnew).
        exists (BatchCall ids max_concurrent false
                :: Cooldown batch_delay :: new).
        split; [by rewrite <- !(assoc_L (++))|].
        by repeat constructor.
      * destruct (IH (all_results ++ results)
                    (log ++ [BatchCall ids max_concurrent false]))
          as (new & -> & Hnew).
        exists (BatchCall ids max_concurrent false :: new).
        split; [by rewrite <- !(assoc_L (++))|].
        by repeat constructor.
    + exists [BatchCall ids max_concurrent false]. by repeat constructor.
    + exists [BatchCall ids max_concurrent false]. by repeat constructor.
Qed.

End ChunkedForce.

(** C9: the chunked entry point has no force-refresh parameter.  Every call
    of the batch runner it makes carries [force_refresh = False], whatever
    the chunk size; and for a positive chunk size (and at least one
    permit) the entry of every requested order whose stored row carries its
    order id and a valid amount is the record rebuilt from the cache. *)
Theorem chunked_fetch_never_forces {delay : Type} (w : world)
    (use_pool : bool) (order_ids : list string)
    (batch_size max_concurrent : Z) (batch_delay : delay)
    (log : list (event delay)) :
  let outcome :=
    process_orders_in_batches (world_session w use_pool) order_ids
      batch_size max_concurrent batch_delay log in
  (∃ new, outcome.1 = log ++ new ∧ Forall unforced new)
  ∧ (0 < batch_size → 0 < max_concurrent →
     ∃ results,
       outcome.2 = Returned results
       ∧ ∀ (i : nat) order_id row stored_id,
           order_ids !! i = Some order_id →
           get_order_by_id w order_id = Ok (Some row) →
           row !! "order_id" = Some stored_id →
           amount_is_positive_number (get row "amount" (PyStr "")) →
           results !! i
           = Some (cached_record order_id (time_time w) stored_id row)
           ∧ results !! i ≫= (.!! "from_cache") = Some (PyBool true)).
Proof.
  intros outcome. split.
  - subst outcome. unfold process_orders_in_batches.
    destruct (batch_size =? 0).
    + exists []. by rewrite app_nil_r.
    + apply each_batch_unforced.
  - intros HS HM.
    pose proof (chunked_batches_run (world_session w use_pool) order_ids
                  batch_size max_concurrent batch_delay log HS HM) as Hrun.
    fold outcome in Hrun.
    exists (entries_of (world_session w use_pool) false order_ids).
    split; [by rewrite Hrun|].
    intros i order_id row stored_id Hi Hdb Hid Hv.
    apply amount_valid_spec in Hv.
    unfold entries_of. rewrite list_lookup_fmap, Hi. simpl.
    unfold entry_of, world_session.
    rewrite (session_cache_hit _ _ _ _ _ Hdb Hid Hv).
    rewrite (dict_truthy_lookup _ "from_cache") by (by eexists).
    done.
Qed.

(** ** Sessions *)

Section SessionPaths.
Context (w : world) (use_pool : bool) (order_id : string).

(** A session that returns a record took one of two paths. *)
Lemma session_paths force_refresh record :
  fetch_order_complete w use_pool order_id force_refresh = Some record →
  (∃ row stored_id,
     get_order_by_id w order_id = Ok (Some row)
     ∧ row !! "order_id" = Some stored_id
     ∧ force_refresh = false
     ∧ amount_valid (get row "amount" (PyStr "")) = true
     ∧ record = cached_record order_id (time_time w) stored_id row)
  ∨ (∃ pg api_data title,
       get_browser w order_id = Ok (Some pg)
       ∧ api_data_of (api_responses pg) = Ok api_data
       ∧ record = fuse order_id (order_url order_id) title (time_time w)
                    api_data (_parse_dom_content pg)).
Proof.
  unfold fetch_order_complete, session_body.
  destruct (get_order_by_id w order_id) as [existing|e]; simpl; [|done].
  assert (Hlive :
    match live_fetch w use_pool order_id with
    | Ok r => r
    | Err _ => None
    end = Some record →
    ∃ pg api_data title,
      get_browser w order_id = Ok (Some pg)
      ∧ api_data_of (api_responses pg) = Ok api_data
      ∧ record = fuse order_id (order_url order_id) title (time_time w)
                   api_data (_parse_dom_content pg)).
  { unfold live_fetch. destruct use_pool; [|done].
    destruct (get_browser w order_id) as [[pg|]|e]; simpl; [|done|done].
    destruct (route_installed pg); simpl; [|done].
    destruct (goto_response pg) as [[status|]|e]; simpl; [|done|done].
    destruct (negb (status =? 200)); [done|].
    destruct (scrolled pg); simpl; [|done].
    destruct (api_data_of (api_responses pg)) as [api_data|e] eqn:Hapi;
      simpl; [|done].
    destruct (page_title pg) as [title|e]; simpl; [|done].
    intros [= <-]. by exists pg, api_data, title. }
  unfold cache_gate.
  destruct existing as [row|]; simpl; [|by right; apply Hlive].
  destruct (dict_truthy row); simpl; [|by right; apply Hlive].
  destruct (amount_valid _) eqn:Hv; simpl; [|by right; apply Hlive].
  destruct force_refresh; simpl; [by right; apply Hlive|].
  destruct (row !! "order_id") as [stored_id|] eqn:Hid; simpl; [|done].
  intros [= <-]. left. by exists row, stored_id.
Qed.


End SessionPaths.

(** C10: provenance of a returned record.  A record returned from the cache
    has [from_cache = True] and neither diagnostic key; a freshly fetched
    record has [from_cache = False] and both diagnostic keys, [dom_status]
    being ['not_detected'] when the scan of the page recorded no status.
    Every record a session returns is of one of the two kinds. *)
Theorem returned_record_provenance (w : world) (use_pool : bool)
    (order_id : string) (force_refresh : bool)
    (record : gmap string pyval) :
  fetch_order_complete w use_pool order_id force_refresh = Some record →
  cache_provenance w order_id record ∨ fresh_provenance w order_id record.
Proof.
  intros Hs. apply session_paths in Hs
    as [(row & stored_id & _ & _ & _ & _ & ->)
       |(pg & api_data & title & _ & _ & ->)].
  - left. exists row, stored_id. split_and!; done.
  - right. exists pg, api_data, title.
    rewrite fuse_from_cache, fuse_api_status, fuse_dom_status.
    split_and!; try done.
    intros Hd. unfold get. by rewrite Hd.
Qed.



(** C7 at its failing input: the stored row of order [A] has a valid amount
    and no quantity; the record rebuilt from the cache has the empty string
    as quantity, not ["1"].  A freshly fetched record does get ["1"] when
    the scan found no quantity. *)
Theorem cached_quantity_defaults_empty :
  (∃ record,
     fetch_order_complete sample_world true "A" false = Some record
     ∧ sample_row !! "quantity" = None
     ∧ record !! "from_cache" = Some (PyBool true)
     ∧ record !! "quantity" = Some (PyStr ""))
  ∧ (∀ order_id url title now api_data dom_data,
       dom_data !! "quantity" = None →
       fuse order_id url title now api_data dom_data !! "quantity"
       = Some (PyStr "1")).
Proof.
  split.
  - eexists. split_and!; [by vm_compute|done|done|done].
  - intros order_id url title now api_data dom_data Hq.
    rewrite fuse_quantity. unfold get. by rewrite Hq.
Qed.

Ltac untouched_step :=
  first
    [ apply untouched_ret
    | apply untouched_lift
    | apply untouched_has_item
    | apply untouched_set_item; discriminate
    | apply untouched_when
    | apply untouched_bind; [|intros ?]
    | match goal with
      | |- untouched _ (if ?b then _ else _) => destruct b
      end ].

Section ApiParserFacts.

Lemma untouched_address_fields k address_info :
  k = "order_status" → untouched k (address_fields address_info).
Proof. intros ->. unfold address_fields, dget. repeat untouched_step. Qed.

Lemma untouched_order_info k component :
  k = "order_status" → untouched k (order_info component).
Proof.
  intros ->. unfold order_info, dget.
  repeat first [ by apply untouched_address_fields | untouched_step ].
Qed.

Lemma untouched_each_component k components :
  k = "order_status" → untouched k (each_component components).
Proof.
  intros ->. induction components as [|component rest IH]; simpl.
  - apply untouched_ret.
  - unfold dget.
    repeat first [ by apply untouched_order_info | apply IH | untouched_step ].
Qed.

(** The parser stores the resolved status of the payload first; nothing
    that follows changes it.  A payload that is not a dict yields no
    status. *)
Lemma parsed_order_status order_data :
  _parse_api_response order_data !! "order_status"
  = match py_get order_data "status" (PyStr "unknown") with
    | Ok status_code => Some (order_status_of status_code)
    | Err _ => None
    end.
Proof.
  unfold _parse_api_response, filled, parse_body, dget.
  unfold mbind at 1, filling_bind at 1. unfold lift at 1.
  destruct (py_get order_data "status" (PyStr "unknown"))
    as [status_code|e]; [|done].
  unfold mbind at 1, filling_bind at 1. unfold set_item at 1.
  match goal with
  | |- (?m ?d).1 !! _ = _ =>
      assert (untouched "order_status" m) as Hu
  end.
  { repeat first [ by apply untouched_each_component | untouched_step ]. }
  rewrite Hu. by rewrite lookup_insert_eq.
Qed.

Lemma STATUS_CODE_MAP_values code name :
  STATUS_CODE_MAP !! code = Some name → name ∈ status_names.
Proof.
  unfold STATUS_CODE_MAP. intros H.
  apply elem_of_list_to_map_2 in H.
  unfold status_names.
  repeat (apply elem_of_cons in H as [[= _ <-]|H]; [solve_elem|]).
  by apply elem_of_nil in H.
Qed.

Lemma table_lookup_enum code :
  default "unknown" (STATUS_CODE_MAP !! code) ∈ status_names.
Proof.
  destruct (STATUS_CODE_MAP !! code) as [name|] eqn:E; simpl.
  - by apply (STATUS_CODE_MAP_values code).
  - unfold status_names. solve_elem.
Qed.

End ApiParserFacts.


Section OrderStatusFacts.

Lemma digits_not_status_name s : isdigit s = true → s ∉ status_names.
Proof.
  intros Hd Hin. unfold status_names in Hin.
  repeat (apply elem_of_cons in Hin as [->|Hin]; [done|]).
  by apply elem_of_nil in Hin.
Qed.

Lemma order_status_of_code status_code :
  is_status_code status_code →
  order_status_of status_code
  = PyStr (default "unknown" (STATUS_CODE_MAP !! py_str status_code)).
Proof.
  destruct status_code as [ | b | z | r | s | l | d ]; try done.
  simpl. intros Hd.
  rewrite bool_decide_eq_false_2 by (by apply digits_not_status_name).
  by rewrite Hd.
Qed.

Lemma order_status_of_cases status_code :
  is_order_status (order_status_of status_code)
  ∨ ∃ s, status_code = PyStr s ∧ (s ∉ status_names) ∧ isdigit s = false
         ∧ order_status_of status_code = PyStr s.
Proof.
  assert (Hcode : is_status_code status_code →
                  is_order_status (order_status_of status_code)).
  { intros Hc. rewrite order_status_of_code by done.
    eexists. split; [done|]. apply table_lookup_enum. }
  destruct status_code as [ | b | z | r | s | l | d ];
    try (left; by apply Hcode).
  destruct (isdigit s) eqn:Hd; [left; by apply Hcode|].
  simpl. rewrite Hd. case_bool_decide as Hin.
  - left. by exists s.
  - right. by exists s.
Qed.

Lemma api_data_of_cases responses api_data :
  api_data_of responses = Ok api_data →
  api_data = ∅
  ∨ ∃ api_result order_data,
      responses !! 0%nat = Some api_result
      ∧ py_get api_result "data" (PyDict []) = Ok order_data
      ∧ api_data = _parse_api_response order_data.
Proof.
  unfold api_data_of. destruct responses as [|api_result rest].
  { intros [= <-]. by left. }
  destruct (py_get api_result "ret" PyNone) as [ret|e]; simpl; [|done].
  destruct (if truthy ret then _ else _) as [[|]|e]; simpl; [| |done].
  - destruct (py_get api_result "data" (PyDict [])) as [order_data|e] eqn:Hd;
      simpl; [|done].
    intros [= <-]. right. by exists api_result, order_data.
  - destruct (py_get api_result "ret" _) as [shown|e]; simpl; [|done].
    destruct (py_first shown); simpl; [|done].
    intros [= <-]. by left.
Qed.

(** The API status of a visit: ['unknown'] or the resolved status of the
    first payload. *)
Lemma api_status_cases responses api_data :
  api_data_of responses = Ok api_data →
  get api_data "order_status" (PyStr "unknown") = PyStr "unknown"
  ∨ ∃ api_result order_data status_code,
      responses !! 0%nat = Some api_result
      ∧ py_get api_result "data" (PyDict []) = Ok order_data
      ∧ py_get order_data "status" (PyStr "unknown") = Ok status_code
      ∧ get api_data "order_status" (PyStr "unknown")
        = order_status_of status_code.
Proof.
  intros [->|(api_result & order_data & Hr & Hd & ->)]%api_data_of_cases.
  { by left. }
  unfold get. rewrite parsed_order_status.
  destruct (py_get order_data "status" (PyStr "unknown"))
    as [status_code|e] eqn:Hs; [|by left].
  right. by exists api_result, order_data, status_code.
Qed.

Lemma unknown_is_order_status : is_order_status (PyStr "unknown").
Proof. eexists. split; [done|]. unfold status_names. solve_elem. Qed.

End OrderStatusFacts.

(** C5 (as the code has it): the [order_status] of a returned record is a
    member of the closed enum, with two exceptions: a record rebuilt from
    the cache carries the stored [order_status] as it is, and a fresh record
    whose page shows no status phrase carries a provider status string that
    is neither a status name nor a string of digits unchanged.  A
    provider code (a non-string value or a string of digits) that the
    static table does not map resolves to ['unknown']. *)
Theorem order_status_enum_or_passed_through (w : world) (use_pool : bool)
    (order_id : string) (force_refresh : bool) :
  (∀ record,
     fetch_order_complete w use_pool order_id force_refresh = Some record →
     ∃ v,
       record !! "order_status" = Some v
       ∧ (is_order_status v
          ∨ (record !! "from_cache" = Some (PyBool true)
             ∧ ∃ row, get_order_by_id w order_id = Ok (Some row)
                      ∧ row !! "order_status" = Some v)
          ∨ (record !! "from_cache" = Some (PyBool false)
             ∧ ∃ pg api_result order_data s,
                 get_browser w order_id = Ok (Some pg)
                 ∧ api_responses pg !! 0%nat = Some api_result
                 ∧ py_get api_result "data" (PyDict []) = Ok order_data
                 ∧ py_get order_data "status" (PyStr "unknown")
                   = Ok (PyStr s)
                 ∧ (s ∉ status_names) ∧ isdigit s = false
                 ∧ v = PyStr s)))
  ∧ (∀ status_code,
       is_status_code status_code →
       STATUS_CODE_MAP !! py_str status_code = None →
       order_status_of status_code = PyStr "unknown").
Proof.
  split.
  - intros record Hs. apply session_paths in Hs
      as [(row & stored_id & Hdb & _ & _ & _ & ->)
         |(pg & api_data & title & Hpg & Hapi & ->)].
    + rewrite cached_record_order_status, cached_record_from_cache.
      eexists. split; [done|]. unfold get.
      destruct (row !! "order_status") as [v|] eqn:Hv; simpl.
      * right; left. split; [done|]. by exists row.
      * left. apply unknown_is_order_status.
    + rewrite fuse_from_cache.
      assert (Hstatus : ∃ v,
        fuse order_id (order_url order_id) title (time_time w) api_data
          (_parse_dom_content pg) !! "order_status" = Some v
        ∧ (is_order_status v
           ∨ v = get api_data "order_status" (PyStr "unknown"))).
      { rewrite fuse_order_status. cbn zeta. eexists. split; [done|].
        unfold get.
        destruct (dom_status_recorded pg) as [Hd|Hd]; rewrite Hd; simpl.
        - by right.
        - pose proof (get_order_status_enum pg) as He.
          pose proof (status_names_truthy _ He) as Ht. simpl in Ht.
          rewrite Ht. simpl.
          destruct (bool_decide (_ = "unknown")); simpl; [by right|].
          left. by eexists. }
      destruct Hstatus as (v & -> & Hv). exists v. split; [done|].
      destruct Hv as [Hv| ->]; [by left|].
      destruct (api_status_cases _ _ Hapi)
        as [->|(api_result & order_data & status_code & Hr & Hd & Hs & ->)].
      { left. apply unknown_is_order_status. }
      destruct (order_status_of_cases status_code)
        as [?|(s & -> & Hn & Hdig & ->)]; [by left|].
      right; right. split; [done|].
      by exists pg, api_result, order_data, s.
  - intros status_code Hc Hnone.
    rewrite order_status_of_code by done. by rewrite Hnone.
Qed.

(** C5 as stated fails: the provider reports the status ['closed'], the
    page shows no status phrase, and the record of the session carries
    ['closed'], which is not in the enum. *)
Lemma raw_status_outside_enum :
  ∃ record,
    fetch_order_complete raw_status_world true "A" false = Some record
    ∧ record !! "order_status" = Some (PyStr "closed")
    ∧ "closed" ∉ status_names.
Proof.
  eexists. split_and!; [by vm_compute|done|].
  intros Hin. unfold status_names in Hin.
  repeat (apply elem_of_cons in Hin as [[=]|Hin]).
  by apply elem_of_nil in Hin.
Qed.

(** ** Instances *)

Example scan_cancelled_only :
  _get_order_status
    (sample_page [] [TextNode "买家取消了订单" (Some (ComputedStyle 14 400))])
  = "cancelled".
Proof. by vm_compute. Qed.

Example scan_prominent_completed :
  _get_order_status
    (sample_page []
       [completed_node (ComputedStyle 24 700);
        processing_node (ComputedStyle 12 400)])
  = "completed"
  ∧ _get_order_status
      (sample_page []
         [processing_node (ComputedStyle 12 400);
          completed_node (ComputedStyle 24 700)])
    = "completed".
Proof. by vm_compute. Qed.

Example amount_validity :
  amount_valid (PyStr "¥ 12.50") = true
  ∧ amount_valid (PyStr "￥0") = false
  ∧ amount_valid (PyStr "") = false
  ∧ amount_valid (PyStr "free") = false
  ∧ amount_valid (PyStr "$ -3") = false
  ∧ amount_valid (PyInt 5) = true
  ∧ amount_valid PyNone = false.
Proof. by vm_compute. Qed.


Lemma batch_one_entry_per_order_witness :
  ∃ results,
    (process_orders_batch (delay := Z) (world_session sample_world true)
       ["A"; "B"; "C"] 5 false []).2 = Returned results
    ∧ length results = 3%nat.
Proof.
  destruct (batch_one_entry_per_order (delay := Z)
              (world_session sample_world true) ["A"; "B"; "C"] 5 false []
              ltac:(lia)) as (results & Hrun & Hlen & _).
  exists results. rewrite Hrun. split; [reflexivity|exact Hlen].
Defined.

Example batch_sibling_failure :
  (λ entry : gmap string pyval,
     (entry !! "order_id", entry !! "error", entry !! "from_cache"))
    <$> entries_of (world_session sample_world true) false ["A"; "B"; "C"]
  = [(Some (PyStr "A"), None, Some (PyBool true));
     (Some (PyStr "B"), Some (PyStr "获取订单信息失败"), None);
     (Some (PyStr "C"), None, Some (PyBool false))].
Proof. by vm_compute. Qed.

Lemma chunked_fetch_partitions_witness :
  length <$> chunks_of 10 sample_ids = [10; 10; 5]%nat
  ∧ length
      (filter (λ e, is_cooldown e = true)
         (with_cooldowns 2%Z
            ((λ c, BatchCall c 5 false) <$> chunks_of 10 sample_ids)))
    = 2%nat.
Proof.
  pose proof (chunked_fetch_partitions (delay := Z)
                (world_session sample_world true) sample_ids 10 5 2 []
                ltac:(lia) ltac:(lia)) as H.
  cbv zeta in H. destruct H as (_ & _ & _ & _ & _ & _ & Hex).
  apply Hex; reflexivity.
Defined.


Lemma returned_record_provenance_witness :
  ∃ record,
    fetch_order_complete sample_world true "C" false = Some record
    ∧ (cache_provenance sample_world "C" record
       ∨ fresh_provenance sample_world "C" record).
Proof.
  destruct (fetch_order_complete sample_world true "C" false)
    as [record|] eqn:Hs.
  - exists record. split; [reflexivity|].
    exact (returned_record_provenance sample_world true "C" false record Hs).
  - vm_compute in Hs. discriminate Hs.
Defined.

